(** * The Senate consensus engine (consensus/senate/consensus.go)

    A shallow embedding of the header verifier, the preparer, the finalizer
    and the seal hash of the delegated-proof-of-stake engine, together with
    the properties of its specification that concern them.

    Conventions.
    - A Go [uint64] or [int64] is a [Z]; every wrap-around is written with
      [u64] or [i64].  A [*big.Int] is an [option Z] ([None] is the nil
      pointer).
    - [common.Hash] and [common.Address] are fixed-size byte arrays; they are
      represented by the big-endian number they spell, the zero value being 0.
    - A Go function that returns an [error] yields a [result]: [Ok] is the
      nil error, [Err] a returned error and [Panic] a run-time panic.
    - The packages the file imports (snapshot, trie, rlp, crypto, the chain
      reader, the state database) are collaborators: they are the fields of
      the record [Deps], over abstract types. *)

From Stdlib Require Import ZArith List String Ascii Bool Lia.
Import ListNotations.

Local Open Scope Z_scope.

(** ** Machine integers *)

Definition u64 (z : Z) : Z := z mod 2 ^ 64.

Definition i64 (z : Z) : Z := (z + 2 ^ 63) mod 2 ^ 64 - 2 ^ 63.

(** [big.Int.Uint64]: the low 64 bits of the magnitude. *)
Definition bigUint64 (x : Z) : Z := Z.abs x mod 2 ^ 64.

(** [big.Int.Int64]: the low 64 bits of the magnitude read as an [int64],
    negated when the number is negative. *)
Definition bigInt64 (x : Z) : Z :=
  let v := i64 (Z.abs x mod 2 ^ 64) in
  if x <? 0 then i64 (- v) else v.

(** ** Plain data *)

Definition byte := Z.
Definition bytes := list byte.
Definition Hash := Z.
Definition Address := Z.

Definition extraVanity : Z := 32.
Definition extraSeal : Z := 65.
(** [crypto.SignatureLength] *)
Definition SignatureLength : Z := 65.
Definition defaultDifficulty : Z := 1.

Definition len {A : Type} (l : list A) : Z := Z.of_nat (List.length l).

(** [bytes.Repeat([]byte{0x00}, n)] *)
Definition zeros (n : Z) : bytes := repeat 0 (Z.to_nat n).

(** The composite root of a snapshot: one hash per trie. *)
Record Root : Type := mkRoot {
  CandidateHash : Hash;
  ConfigHash : Hash;
  DeclareHash : Hash;
  DelegateHash : Hash;
  EpochHash : Hash;
  MintCntHash : Hash;
  ProposalHash : Hash;
  VoteHash : Hash
}.

Definition zeroRoot : Root := mkRoot 0 0 0 0 0 0 0 0.

(** Go's [==] on the struct: field by field. *)
Definition Root_eqb (a b : Root) : bool :=
  (CandidateHash a =? CandidateHash b) && (ConfigHash a =? ConfigHash b) &&
  (DeclareHash a =? DeclareHash b) && (DelegateHash a =? DelegateHash b) &&
  (EpochHash a =? EpochHash b) && (MintCntHash a =? MintCntHash b) &&
  (ProposalHash a =? ProposalHash b) && (VoteHash a =? VoteHash b).

(** [types.Header]. *)
Record Header : Type := mkHeader {
  ParentHash : Hash;
  UncleHash : Hash;
  Coinbase : Address;
  StateRoot : Hash;          (* the field [Root] of the Go struct *)
  TxHash : Hash;
  ReceiptHash : Hash;
  Bloom : bytes;
  Difficulty : option Z;
  Number : option Z;
  GasLimit : Z;
  GasUsed : Z;
  Time : Z;
  Extra : bytes;
  MixDigest : Hash;
  Nonce : bytes
}.

Definition setTime (h : Header) (t : Z) : Header :=
  mkHeader (ParentHash h) (UncleHash h) (Coinbase h) (StateRoot h) (TxHash h)
    (ReceiptHash h) (Bloom h) (Difficulty h) (Number h) (GasLimit h)
    (GasUsed h) t (Extra h) (MixDigest h) (Nonce h).

Definition setExtra (h : Header) (e : bytes) : Header :=
  mkHeader (ParentHash h) (UncleHash h) (Coinbase h) (StateRoot h) (TxHash h)
    (ReceiptHash h) (Bloom h) (Difficulty h) (Number h) (GasLimit h)
    (GasUsed h) (Time h) e (MixDigest h) (Nonce h).

Definition setMixDigest (h : Header) (m : Hash) : Header :=
  mkHeader (ParentHash h) (UncleHash h) (Coinbase h) (StateRoot h) (TxHash h)
    (ReceiptHash h) (Bloom h) (Difficulty h) (Number h) (GasLimit h)
    (GasUsed h) (Time h) (Extra h) m (Nonce h).

Definition setDifficulty (h : Header) (d : option Z) : Header :=
  mkHeader (ParentHash h) (UncleHash h) (Coinbase h) (StateRoot h) (TxHash h)
    (ReceiptHash h) (Bloom h) d (Number h) (GasLimit h)
    (GasUsed h) (Time h) (Extra h) (MixDigest h) (Nonce h).

Definition setStateRoot (h : Header) (r : Hash) : Header :=
  mkHeader (ParentHash h) (UncleHash h) (Coinbase h) r (TxHash h)
    (ReceiptHash h) (Bloom h) (Difficulty h) (Number h) (GasLimit h)
    (GasUsed h) (Time h) (Extra h) (MixDigest h) (Nonce h).

Definition setUncleHash (h : Header) (u : Hash) : Header :=
  mkHeader (ParentHash h) u (Coinbase h) (StateRoot h) (TxHash h)
    (ReceiptHash h) (Bloom h) (Difficulty h) (Number h) (GasLimit h)
    (GasUsed h) (Time h) (Extra h) (MixDigest h) (Nonce h).

(** ** Errors and panics *)

Inductive Error : Type :=
| errUnknownBlock
| ErrFutureBlock
| ErrUnknownAncestor
| errMissingVanity
| errMissingSignature
| errInvalidMixDigest
| errInvalidUncleHash
| ErrInvalidTimestamp
| errUnauthorized
| errUnclesNotAllowed
| errInvalidTrieRoot          (* errors.New("invalid trie root") *)
| errSnapshotWrite            (* errors.New("failed to write snapshot") *)
| errCollaborator (msg : string).   (* an error made by another package *)

Inductive PanicValue : Type :=
| panicSealSlice              (* header.Extra[:len-65] with len < 65 *)
| panicCantEncode (e : Error) (* panic("can't encode: " + err.Error()) *)
| panicSliceBounds            (* any other slice out of range *)
| panicNilDereference
| panicDivideByZero
| panicError (e : option Error).    (* panic(err), err possibly nil *)

(** What a collaborator hands back: a value, or a non-nil error. *)
Inductive errorOr (A : Type) : Type :=
| Success (a : A)
| Failure (e : Error).
Arguments Success {A} a.
Arguments Failure {A} e.

Inductive result (A : Type) : Type :=
| Ok (a : A)
| Err (e : Error)
| Panic (p : PanicValue).
Arguments Ok {A} a.
Arguments Err {A} e.
Arguments Panic {A} p.

Definition isPanic {A : Type} (r : result A) : bool :=
  match r with Panic _ => true | _ => false end.

(** ** The diagnostic formatter of a root *)

Definition nl : string := String (ascii_of_nat 10) EmptyString.

Section Formatter.

(** [common.Hash.String] *)
Variable HashString : Hash -> string.

Definition Root2String (root : Root) : string :=
  (nl ++ "CandidateHash=" ++ HashString (CandidateHash root) ++
   " " ++ nl ++ "ConfigHash=" ++ HashString (ConfigHash root) ++
   " " ++ nl ++ "DeclareHash=" ++ HashString (DeclareHash root) ++
   " " ++ nl ++ "DelegateHash= " ++ HashString (DelegateHash root) ++
   " " ++ nl ++ "CandidateHash=" ++ HashString (CandidateHash root) ++
   " " ++ nl ++ "EpochHash=" ++ HashString (EpochHash root) ++
   " " ++ nl ++ "MintCntHash=" ++ HashString (MintCntHash root) ++
   " " ++ nl ++ "ProposalHash=" ++ HashString (ProposalHash root) ++
   " " ++ nl ++ "VoteHash=" ++ HashString (VoteHash root))%string.

End Formatter.

(** [Contains s t]: the string [s] occurs in [t]. *)
Definition Contains (s t : string) : Prop :=
  exists a b : string, t = (a ++ s ++ b)%string.

(** The same, decided. *)
Fixpoint occursb (s t : string) : bool :=
  if String.prefix s t then true
  else
    match t with
    | EmptyString => false
    | String _ t' => occursb s t'
    end.


(** ** The payload of a header's extra field *)

Module params.
(** [params.SenateConfig]: the two fields the engine reads here, both
    [uint64]. *)
Record SenateConfig : Type := mkConfig {
  Period : Z;
  Epoch : Z
}.
End params.

Module HeaderExtra.
(** [HeaderExtra]: the root, the epoch counter and the epoch start (both
    [uint64]), and the remaining fields (validators, confirmations and the
    governance log), which this file never inspects. *)
Record t (Logs : Type) : Type := make {
  Root : Root;
  Epoch : Z;
  EpochTime : Z;
  Logs_ : Logs
}.
Arguments make {Logs} _ _ _ _.
Arguments Root {Logs} _.
Arguments Epoch {Logs} _.
Arguments EpochTime {Logs} _.
Arguments Logs_ {Logs} _.
End HeaderExtra.

(** The values handed to [rlp.Encode] by [encodeSigHeader]. *)
Inductive RlpItem : Type :=
| RlpHash (h : Hash)
| RlpAddress (a : Address)
| RlpBytes (b : bytes)
| RlpBigInt (x : option Z)
| RlpUint64 (x : Z).

(** The calls on the snapshot store that a verification makes, in order. *)
Inductive Call : Type :=
| CallNewSnapshot
| CallLoadSnapshot (r : Root)
| CallCommit (r : Root).

Definition isCommit (c : Call) : bool :=
  match c with CallCommit _ => true | _ => false end.

Definition isLoad (c : Call) : bool :=
  match c with CallLoadSnapshot _ => true | _ => false end.

Section Engine.

(** The store, a snapshot (a [*Snapshot]), the signature cache, the part of
    the extra payload that is not read here, the account state and the
    transactions of a block. *)
Variables DB Snapshot SigCache Logs StateDB Txs : Type.

Local Abbreviation Extra_t := (HeaderExtra.t Logs).

(** The collaborators of the engine. *)
Record Deps : Type := mkDeps {
  (* the engine's own fields and package constants *)
  senateConfig : params.SenateConfig;          (* *senate.config *)
  uncleHash : Hash;                            (* the package's uncleHash *)
  CalcUncleHashNil : Hash;                     (* types.CalcUncleHash(nil) *)
  (* the chain *)
  GetHeader : Hash -> Z -> option Header;
  IsEIP158 : option Z -> bool;
  HeaderHash : Header -> Hash;                 (* header.Hash() *)
  (* the codec of the extra payload *)
  decodeHeaderExtra : Header -> errorOr Extra_t;
  Encode : Extra_t -> errorOr bytes;
  Equal : Extra_t -> Extra_t -> bool;
  zeroLogs : Logs;                             (* the fields of HeaderExtra{} *)
  (* the snapshot *)
  nilSnapshot : Snapshot;                      (* what comes with an error *)
  newSnapshot : DB -> errorOr Snapshot;
  loadSnapshot : DB -> Root -> errorOr Snapshot;
  snapApply : Snapshot -> Header -> Extra_t -> errorOr Snapshot;
  snapRoot : Snapshot -> errorOr Root;
  snapCommit : Snapshot -> Root -> DB -> option Error * DB;
  (* the configuration and the schedule *)
  chainConfigByHash : DB -> Hash -> errorOr params.SenateConfig;
  chainConfig : DB -> option Header -> errorOr params.SenateConfig;
  inTurn : DB -> params.SenateConfig -> Header -> Z -> Address -> bool;
  (* the signature cache *)
  sigGet : SigCache -> Hash -> option Address * SigCache;
  sigAdd : SigCache -> Hash -> Address -> SigCache;
  (* crypto and rlp *)
  Ecrecover : Hash -> bytes -> errorOr bytes;
  Keccak256 : bytes -> Hash;
  rlpEncode : list RlpItem -> errorOr bytes;
  (* finalization *)
  accumulateRewards : params.SenateConfig -> StateDB -> Header -> StateDB;
  processTransactions :
    params.SenateConfig -> StateDB -> Header -> Snapshot -> Extra_t -> Txs ->
    StateDB * Snapshot * Extra_t;
  tryElect :
    params.SenateConfig -> StateDB -> Header -> Snapshot -> Extra_t ->
    option Error * (StateDB * Snapshot * Extra_t);
  IntermediateRoot : StateDB -> bool -> Hash * StateDB
}.

Variable E : Deps.

(** *** The seal hash *)

(** [encodeSigHeader]: the bytes written to [w].  The slice expression is
    evaluated before [rlp.Encode] is called. *)
Definition encodeSigHeader (header : Header) : result bytes :=
  if len (Extra header) <? SignatureLength then Panic panicSealSlice
  else
    match rlpEncode E
            [ RlpHash (ParentHash header);
              RlpHash (UncleHash header);
              RlpAddress (Coinbase header);
              RlpHash (StateRoot header);
              RlpHash (TxHash header);
              RlpHash (ReceiptHash header);
              RlpBytes (Bloom header);
              RlpBigInt (Difficulty header);
              RlpBigInt (Number header);
              RlpUint64 (GasLimit header);
              RlpUint64 (GasUsed header);
              RlpUint64 (Time header);
              RlpBytes (firstn (Z.to_nat (len (Extra header) - SignatureLength))
                               (Extra header));
              RlpHash (MixDigest header);
              RlpBytes (Nonce header) ]
    with
    | Failure err => Panic (panicCantEncode err)
    | Success b => Ok b
    end.

Definition SealHash (header : Header) : result Hash :=
  match encodeSigHeader header with
  | Ok b => Ok (Keccak256 E b)
  | Err e => Err e
  | Panic p => Panic p
  end.

Definition SenateRLP (header : Header) : result bytes :=
  encodeSigHeader header.

Definition CalcDifficulty : option Z := Some defaultDifficulty.

(** *** Verification: a state and error monad *)

Record World : Type := mkWorld {
  db : DB;
  signatures : SigCache;
  calls : list Call            (* oldest first *)
}.

Definition M (A : Type) : Type := World -> result A * World.

Definition ret {A : Type} (a : A) : M A := fun w => (Ok a, w).

Definition throw {A : Type} (e : Error) : M A := fun w => (Err e, w).

Definition panic {A : Type} (p : PanicValue) : M A := fun w => (Panic p, w).

Definition bind {A B : Type} (m : M A) (k : A -> M B) : M B :=
  fun w =>
    match m w with
    | (Ok a, w') => k a w'
    | (Err e, w') => (Err e, w')
    | (Panic p, w') => (Panic p, w')
    end.

Notation "x <- m ;; k" := (bind m (fun x => k))
  (at level 61, m at next level, right associativity).
Notation "' p <- m ;; k" := (bind m (fun x => let 'p := x in k))
  (at level 61, p pattern, m at next level, right associativity).
Notation "m ;;; k" := (bind m (fun _ => k))
  (at level 61, right associativity).

(** [v, err := f(...); if err != nil { return err }] *)
Definition try {A : Type} (r : errorOr A) : M A :=
  match r with
  | Success a => ret a
  | Failure e => throw e
  end.

Definition liftR {A : Type} (r : result A) : M A := fun w => (r, w).

Definition getDB : M DB := fun w => (Ok (db w), w).

Definition logCall (w : World) (c : Call) : World :=
  mkWorld (db w) (signatures w) (calls w ++ [c]).

Definition record (c : Call) : M unit := fun w => (Ok tt, logCall w c).

(** Dereferencing a [*big.Int]. *)
Definition deref (x : option Z) : M Z :=
  match x with
  | Some n => ret n
  | None => panic panicNilDereference
  end.

(** [ecrecover] *)
Definition ecrecover (header : Header) : M Address :=
  let hash := HeaderHash E header in
  fun w =>
    match sigGet E (signatures w) hash with
    | (Some address, cache) => (Ok address, mkWorld (db w) cache (calls w))
    | (None, cache) =>
        (if len (Extra header) <? extraSeal then throw errMissingSignature
         else
           let signature :=
             skipn (Z.to_nat (len (Extra header) - extraSeal)) (Extra header) in
           sealHash <- liftR (SealHash header) ;;
           pubkey <- try (Ecrecover E sealHash signature) ;;
           match pubkey with
           | [] => panic panicSliceBounds
           | _ :: rest =>
               let signer := Keccak256 E rest mod 2 ^ 160 in
               fun w' =>
                 (Ok signer,
                  mkWorld (db w') (sigAdd E (signatures w') hash signer) (calls w'))
           end)
          (mkWorld (db w) cache (calls w))
    end.

(** [verifySeal] *)
Definition verifySeal (config : params.SenateConfig) (header parent : Header)
  : M unit :=
  n <- deref (Number header) ;;
  let number := bigUint64 n in
  if number =? 0 then throw errUnknownBlock
  else
    signer <- ecrecover header ;;
    d <- getDB ;;
    if negb (inTurn E d config parent (Time header) signer)
    then throw errUnauthorized
    else ret tt.

(** The test of lines 187-191: does the pair (Epoch, EpochTime) of the
    header continue the one of the parent? *)
Definition epochContinuous (headerExtra parentHeaderExtra : Extra_t)
           (headerTime : Z) : bool :=
  if negb (HeaderExtra.Epoch headerExtra =? HeaderExtra.Epoch parentHeaderExtra)
     || negb (HeaderExtra.EpochTime headerExtra =?
              HeaderExtra.EpochTime parentHeaderExtra)
  then
    if negb (HeaderExtra.Epoch headerExtra =?
             u64 (HeaderExtra.Epoch parentHeaderExtra + 1))
       || negb (HeaderExtra.EpochTime headerExtra =? headerTime)
    then false
    else true
  else true.

(** Lines 142-147: the parent comes from the batch, or from the chain. *)
Definition resolveParent (header : Header) (number : Z) (parents : list Header)
  : option Header :=
  if len parents >? 0 then Some (last parents header)
  else GetHeader E (ParentHash header) (u64 (number - 1)).

(** Lines 193-218: replay, compare the roots, check the seal, commit. *)
Definition replayAndSeal (config : params.SenateConfig) (snap : Snapshot)
           (header parent : Header) (headerExtra : Extra_t) : M unit :=
  snap' <- try (snapApply E snap header headerExtra) ;;
  root <- try (snapRoot E snap') ;;
  if negb (Root_eqb root (HeaderExtra.Root headerExtra))
  then throw errInvalidTrieRoot
  else
    verifySeal config header parent ;;;
    record (CallCommit root) ;;;
    fun w =>
      match snapCommit E snap' root (db w) with
      | (Some _, d) => (Err errSnapshotWrite, mkWorld d (signatures w) (calls w))
      | (None, d) => (Ok tt, mkWorld d (signatures w) (calls w))
      end.

(** [verifyCascadingFields] *)
Definition verifyCascadingFields (header : Header) (parents : list Header)
  : M unit :=
  n <- deref (Number header) ;;
  let number := bigUint64 n in
  if number =? 0 then ret tt
  else
    match resolveParent header number parents with
    | None => throw ErrUnknownAncestor
    | Some parent =>
        pn <- deref (Number parent) ;;
        if negb (bigUint64 pn =? u64 (number - 1))
           || negb (HeaderHash E parent =? ParentHash header)
        then throw ErrUnknownAncestor
        else if Time parent >? Time header then throw ErrInvalidTimestamp
        else
          headerExtra <- try (decodeHeaderExtra E header) ;;
          d <- getDB ;;
          '(config, parentHeaderExtra, snap) <-
            (if bigInt64 pn =? 0 then
               record CallNewSnapshot ;;;
               snap <- try (newSnapshot E d) ;;
               ret (senateConfig E, headerExtra, snap)
             else
               parentHeaderExtra <- try (decodeHeaderExtra E parent) ;;
               config <- try (chainConfigByHash E d
                                (ConfigHash (HeaderExtra.Root parentHeaderExtra))) ;;
               record (CallLoadSnapshot (HeaderExtra.Root parentHeaderExtra)) ;;;
               snap <- try (loadSnapshot E d (HeaderExtra.Root parentHeaderExtra)) ;;
               ret (config, parentHeaderExtra, snap)) ;;
          if negb (epochContinuous headerExtra parentHeaderExtra (Time header))
          then throw ErrInvalidTimestamp
          else replayAndSeal config snap header parent headerExtra
    end.

(** [verifyHeader]; [now] is [time.Now().Unix()]. *)
Definition verifyHeader (now : Z) (header : Header) (parents : list Header)
  : M unit :=
  match Number header with
  | None => throw errUnknownBlock
  | Some _ =>
      if Time header >? u64 now then throw ErrFutureBlock
      else if len (Extra header) <? extraVanity then throw errMissingVanity
      else if len (Extra header) <? extraVanity + extraSeal
           then throw errMissingSignature
      else if negb (MixDigest header =? 0) then throw errInvalidMixDigest
      else if negb (UncleHash header =? uncleHash E) then throw errInvalidUncleHash
      else verifyCascadingFields header parents
  end.

(** [VerifyHeader] *)
Definition VerifyHeader (now : Z) (header : Header) (seal : bool) : M unit :=
  verifyHeader now header [].

(** The snapshot of the parent of a block: a fresh one when the parent is
    the genesis block, else the one stored under the root that the parent
    declares.  [pn] is the number of the parent. *)
Definition snapshotOfParent (d : DB) (parent : Header) (pn : Z)
  : errorOr Snapshot :=
  if bigInt64 pn =? 0 then newSnapshot E d
  else
    match decodeHeaderExtra E parent with
    | Success parentHeaderExtra =>
        loadSnapshot E d (HeaderExtra.Root parentHeaderExtra)
    | Failure err => Failure err
    end.

(** *** Preparation *)

(** Lines 293-297 and 312-316: the time of the new block. *)
Definition blockTime (config : params.SenateConfig) (parent : Header) (now : Z)
  : Z :=
  let t := u64 (Time parent + params.Period config) in
  if i64 t <? now then u64 now else t.

(** Lines 291-326: the time of the header and the payload of its extra. *)
Definition prepareFields (d : DB) (now : Z) (header parent : Header)
           (number : Z) : Header * result Extra_t :=
  if number =? 1 then
    let config := senateConfig E in
    let header := setTime header (blockTime config parent now) in
    (header, Ok (HeaderExtra.make zeroRoot 1 (Time header) (zeroLogs E)))
  else
    match decodeHeaderExtra E parent with
    | Failure err => (header, Err err)
    | Success parentHeaderExtra =>
        match chainConfigByHash E d
                (ConfigHash (HeaderExtra.Root parentHeaderExtra)) with
        | Failure err => (header, Err err)
        | Success config =>
            let header := setTime header (blockTime config parent now) in
            let duration :=
              u64 (Time header - HeaderExtra.EpochTime parentHeaderExtra) in
            if params.Epoch config =? 0 then (header, Panic panicDivideByZero)
            else if (duration / params.Epoch config >=? 1)
                    && (duration mod params.Epoch config >? 0)
            then
              (header,
               Ok (HeaderExtra.make (HeaderExtra.Root parentHeaderExtra)
                     (u64 (HeaderExtra.Epoch parentHeaderExtra + 1))
                     (Time header) (zeroLogs E)))
            else
              (header,
               Ok (HeaderExtra.make (HeaderExtra.Root parentHeaderExtra)
                     (HeaderExtra.Epoch parentHeaderExtra)
                     (HeaderExtra.EpochTime parentHeaderExtra) (zeroLogs E)))
        end
    end.

(** Lines 334-339: vanity, payload, room for the seal. *)
Definition frameExtra (extra data : bytes) : bytes :=
  let padded :=
    if len extra <? extraVanity
    then extra ++ zeros (extraVanity - len extra)
    else extra in
  firstn (Z.to_nat extraVanity) padded ++ data ++ zeros extraSeal.

(** [Prepare]: the header as the call leaves it, and what the call returns. *)
Definition Prepare (d : DB) (now : Z) (header : Header)
  : Header * result unit :=
  match Number header with
  | None => (header, Panic panicNilDereference)
  | Some n =>
      let header := setMixDigest header 0 in
      let header := setDifficulty header CalcDifficulty in
      let number := bigUint64 n in
      match GetHeader E (ParentHash header) (u64 (number - 1)) with
      | None => (header, Err ErrUnknownAncestor)
      | Some parent =>
          match prepareFields d now header parent number with
          | (header, Ok headerExtra) =>
              match Encode E headerExtra with
              | Failure err => (header, Err err)
              | Success data =>
                  (setExtra header (frameExtra (Extra header) data), Ok tt)
              end
          | (header, Err e) => (header, Err e)
          | (header, Panic p) => (header, Panic p)
          end
      end
  end.

(** *** Finalization *)

(** Lines 361-373: the snapshot the block is replayed on, and the value of
    the function's [err] after the branch.  In the second branch [:=]
    declares a fresh [err], to which the result of [loadSnapshot] is
    assigned: the outer one keeps the nil it got from decoding the header.
    A nil parent is dereferenced by [decodeHeaderExtra]. *)
Definition finalizeSnapshot (d : DB) (number : Z) (parent : option Header)
  : result (Snapshot * option Error) :=
  if number <=? 1 then
    match newSnapshot E d with
    | Success snap => Ok (snap, None)
    | Failure err => Ok (nilSnapshot E, Some err)
    end
  else
    match parent with
    | None => Panic panicNilDereference
    | Some p =>
        match decodeHeaderExtra E p with
        | Failure err => Panic (panicError (Some err))
        | Success parentHeaderExtra =>
            match loadSnapshot E d (HeaderExtra.Root parentHeaderExtra) with
            | Success snap => Ok (snap, None)
            | Failure _ => Ok (nilSnapshot E, None)
            end
        end
    end.

(** [Finalize]: the header and the state as the call leaves them. *)
Definition Finalize (d : DB) (header : Header) (state : StateDB) (txs : Txs)
  : result (Header * StateDB) :=
  match Number header with
  | None => Panic panicNilDereference
  | Some n =>
      let number := bigUint64 n in
      match decodeHeaderExtra E header with
      | Failure err => Panic (panicError (Some err))
      | Success headerExtra =>
          let parent := GetHeader E (ParentHash header) (u64 (bigUint64 n - 1)) in
          match finalizeSnapshot d number parent with
          | Panic p => Panic p
          | Err e => Err e
          | Ok (_, Some err) => Panic (panicError (Some err))
          | Ok (snap, None) =>
              match chainConfig E d parent with
              | Failure err => Panic (panicError (Some err))
              | Success config =>
                  let state := accumulateRewards E config state header in
                  let temp :=
                    HeaderExtra.make (HeaderExtra.Root headerExtra)
                      (HeaderExtra.Epoch headerExtra)
                      (HeaderExtra.EpochTime headerExtra) (zeroLogs E) in
                  let '(state, snap, temp) :=
                    processTransactions E config state header snap temp txs in
                  let '(err, (state, snap, temp)) :=
                    tryElect E config state header snap temp in
                  if (match err with Some _ => true | None => false end)
                     || negb (Equal E temp headerExtra)
                  then Panic (panicError err)
                  else
                    let '(root, state) :=
                      IntermediateRoot E state (IsEIP158 E (Number header)) in
                    Ok (setUncleHash (setStateRoot header root)
                          (CalcUncleHashNil E), state)
              end
          end
      end
  end.

End Engine.

Arguments mkDeps {DB Snapshot SigCache Logs StateDB Txs}.
Arguments senateConfig {DB Snapshot SigCache Logs StateDB Txs} _.
Arguments uncleHash {DB Snapshot SigCache Logs StateDB Txs} _.
Arguments CalcUncleHashNil {DB Snapshot SigCache Logs StateDB Txs} _.
Arguments GetHeader {DB Snapshot SigCache Logs StateDB Txs} _.
Arguments IsEIP158 {DB Snapshot SigCache Logs StateDB Txs} _.
Arguments HeaderHash {DB Snapshot SigCache Logs StateDB Txs} _.
Arguments decodeHeaderExtra {DB Snapshot SigCache Logs StateDB Txs} _.
Arguments Encode {DB Snapshot SigCache Logs StateDB Txs} _.
Arguments Equal {DB Snapshot SigCache Logs StateDB Txs} _.
Arguments zeroLogs {DB Snapshot SigCache Logs StateDB Txs} _.
Arguments nilSnapshot {DB Snapshot SigCache Logs StateDB Txs} _.
Arguments newSnapshot {DB Snapshot SigCache Logs StateDB Txs} _.
Arguments loadSnapshot {DB Snapshot SigCache Logs StateDB Txs} _.
Arguments snapApply {DB Snapshot SigCache Logs StateDB Txs} _.
Arguments snapRoot {DB Snapshot SigCache Logs StateDB Txs} _.
Arguments snapCommit {DB Snapshot SigCache Logs StateDB Txs} _.
Arguments chainConfigByHash {DB Snapshot SigCache Logs StateDB Txs} _.
Arguments chainConfig {DB Snapshot SigCache Logs StateDB Txs} _.
Arguments inTurn {DB Snapshot SigCache Logs StateDB Txs} _.
Arguments sigGet {DB Snapshot SigCache Logs StateDB Txs} _.
Arguments sigAdd {DB Snapshot SigCache Logs StateDB Txs} _.
Arguments Ecrecover {DB Snapshot SigCache Logs StateDB Txs} _.
Arguments Keccak256 {DB Snapshot SigCache Logs StateDB Txs} _.
Arguments rlpEncode {DB Snapshot SigCache Logs StateDB Txs} _.
Arguments accumulateRewards {DB Snapshot SigCache Logs StateDB Txs} _.
Arguments processTransactions {DB Snapshot SigCache Logs StateDB Txs} _.
Arguments tryElect {DB Snapshot SigCache Logs StateDB Txs} _.
Arguments IntermediateRoot {DB Snapshot SigCache Logs StateDB Txs} _.

Arguments mkWorld {DB SigCache} _ _ _.
Arguments db {DB SigCache} _.
Arguments signatures {DB SigCache} _.
Arguments calls {DB SigCache} _.
Arguments logCall {DB SigCache} w c.
Arguments encodeSigHeader {DB Snapshot SigCache Logs StateDB Txs} E header.
Arguments SealHash {DB Snapshot SigCache Logs StateDB Txs} E header.
Arguments SenateRLP {DB Snapshot SigCache Logs StateDB Txs} E header.
Arguments ecrecover {DB Snapshot SigCache Logs StateDB Txs} E header _.
Arguments verifySeal {DB Snapshot SigCache Logs StateDB Txs} E config header parent _.
Arguments epochContinuous {Logs} headerExtra parentHeaderExtra headerTime.
Arguments resolveParent {DB Snapshot SigCache Logs StateDB Txs} E header number parents.
Arguments replayAndSeal {DB Snapshot SigCache Logs StateDB Txs} E config snap header parent headerExtra _.
Arguments verifyCascadingFields {DB Snapshot SigCache Logs StateDB Txs} E header parents _.
Arguments verifyHeader {DB Snapshot SigCache Logs StateDB Txs} E now header parents _.
Arguments VerifyHeader {DB Snapshot SigCache Logs StateDB Txs} E now header seal _.
Arguments snapshotOfParent {DB Snapshot SigCache Logs StateDB Txs} E d parent pn.
Arguments prepareFields {DB Snapshot SigCache Logs StateDB Txs} E d now header parent number.
Arguments Prepare {DB Snapshot SigCache Logs StateDB Txs} E d now header.
Arguments finalizeSnapshot {DB Snapshot SigCache Logs StateDB Txs} E d number parent.
Arguments Finalize {DB Snapshot SigCache Logs StateDB Txs} E d header state txs.

(** ** A small chain to run the engine on

    Concrete collaborators: a payload of eleven bytes (one per hash of the
    root, one for the epoch, two for the epoch start), snapshots that are
    their own root and count the minted blocks, a store that lists the
    committed roots, one validator (account 7) and a seal that spells the
    signer. *)
Module Scenario.

Definition DB : Type := list Root.
Definition Snapshot : Type := Root.
Definition SigCache : Type := list (Hash * Address).
Definition Logs : Type := unit.
Definition StateDB : Type := Z.
Definition Txs : Type := list Z.

Definition bigEndian (b : bytes) : Z :=
  fold_left (fun acc x => acc * 256 + x) b 0.

Definition payload (x : HeaderExtra.t Logs) : bytes :=
  let r := HeaderExtra.Root x in
  [ CandidateHash r; ConfigHash r; DeclareHash r; DelegateHash r;
    EpochHash r; MintCntHash r; ProposalHash r; VoteHash r;
    HeaderExtra.Epoch x;
    HeaderExtra.EpochTime x / 256; HeaderExtra.EpochTime x mod 256 ].

Definition decode (header : Header) : errorOr (HeaderExtra.t Logs) :=
  if len (Extra header) <? extraVanity + extraSeal
  then Failure (errCollaborator "extra too short")
  else
    match firstn (Z.to_nat (len (Extra header) - extraVanity - extraSeal))
                 (skipn (Z.to_nat extraVanity) (Extra header)) with
    | [c; cf; dc; dl; ep; mc; pr; vo; e; t1; t0] =>
        Success (HeaderExtra.make (mkRoot c cf dc dl ep mc pr vo) e
                   (t1 * 256 + t0) tt)
    | _ => Failure (errCollaborator "malformed extra")
    end.

Definition extraEqual (a b : HeaderExtra.t Logs) : bool :=
  Root_eqb (HeaderExtra.Root a) (HeaderExtra.Root b)
  && (HeaderExtra.Epoch a =? HeaderExtra.Epoch b)
  && (HeaderExtra.EpochTime a =? HeaderExtra.EpochTime b).

Definition hashOf (header : Header) : Hash :=
  match Number header with
  | Some n => 1 + n * 65536 + Time header mod 65536
  | None => 0
  end.

(** Every block minted adds one to the mint-count trie. *)
Definition mint (snap : Snapshot) : Snapshot :=
  mkRoot (CandidateHash snap) (ConfigHash snap) (DeclareHash snap)
    (DelegateHash snap) (EpochHash snap) (MintCntHash snap + 1)
    (ProposalHash snap) (VoteHash snap).

Definition load (d : DB) (r : Root) : errorOr Snapshot :=
  if existsb (Root_eqb r) d then Success r
  else Failure (errCollaborator "snapshot missing").

Definition cacheGet (c : SigCache) (h : Hash) : option Address * SigCache :=
  (option_map snd (find (fun kv => fst kv =? h) c), c).

Definition rlpItem (i : RlpItem) : bytes :=
  match i with
  | RlpHash h => [h mod 256]
  | RlpAddress a => [a mod 256]
  | RlpBytes b => b
  | RlpBigInt (Some x) => [x mod 256]
  | RlpBigInt None => [0]
  | RlpUint64 x => [x mod 256]
  end.

(** [common.Hash.String]: 0x and 64 hexadecimal digits. *)
Definition hexDigit (d : Z) : ascii :=
  nth (Z.to_nat d) (list_ascii_of_string "0123456789abcdef") "0"%char.

Fixpoint hexDigits (k : nat) (x : Z) (acc : string) : string :=
  match k with
  | O => acc
  | S k' => hexDigits k' (x / 16) (String (hexDigit (x mod 16)) acc)
  end.

Definition hashString (h : Hash) : string :=
  ("0x" ++ hexDigits 64 h "")%string.

Definition uncles : Hash :=
  0x1dcc4de8dec75d7aab85b567b6ccd41ad312451b948a7413f0a142fd40d49347.

Definition config : params.SenateConfig := params.mkConfig 3 30.

Definition block (parentHash number time : Z) (extra : bytes) : Header :=
  mkHeader parentHash uncles 7 0 0 0 [] (Some 1) (Some number) 8000000 0
    time extra 0 (zeros 8).

(** The seal of validator 7. *)
Definition seal7 : bytes := zeros 64 ++ [7].

Definition extraOf (r : Root) (epoch epochTime : Z) (seal : bytes) : bytes :=
  zeros 32 ++ payload (HeaderExtra.make r epoch epochTime tt) ++ seal.

Definition root1 : Root := mint zeroRoot.
Definition root7 : Root := mkRoot 1 2 3 4 5 7 0 0.
Definition root8 : Root := mint root7.

Definition genesis : Header := block 0 0 900 (extraOf zeroRoot 0 0 (zeros 65)).

(** The block at height 7 of scenario 3: epoch 5 began at 1000. *)
Definition parent7 : Header :=
  block 4242 7 1027 (extraOf root7 5 1000 seal7).

Definition chain : list Header := [genesis; parent7].

Definition getHeader (hash : Hash) (number : Z) : option Header :=
  find (fun h => (hashOf h =? hash)
                 && match Number h with
                    | Some n => n =? number
                    | None => false
                    end) chain.

Definition deps : Deps DB Snapshot SigCache Logs StateDB Txs :=
  {| senateConfig := config;
     uncleHash := uncles;
     CalcUncleHashNil := uncles;
     GetHeader := getHeader;
     IsEIP158 := fun _ => true;
     HeaderHash := hashOf;
     decodeHeaderExtra := decode;
     Encode := fun x => Success (payload x);
     Equal := extraEqual;
     zeroLogs := tt;
     nilSnapshot := zeroRoot;
     newSnapshot := fun _ => Success zeroRoot;
     loadSnapshot := load;
     snapApply := fun snap _ _ => Success (mint snap);
     snapRoot := fun snap => Success snap;
     snapCommit := fun _ root d => (None, root :: d);
     chainConfigByHash := fun _ _ => Success config;
     chainConfig := fun _ _ => Success config;
     inTurn := fun _ _ _ _ signer => signer =? 7;
     sigGet := cacheGet;
     sigAdd := fun c h a => (h, a) :: c;
     Ecrecover := fun _ signature => Success (4 :: signature);
     Keccak256 := bigEndian;
     rlpEncode := fun items => Success (flat_map rlpItem items);
     accumulateRewards := fun _ state _ => state + 1;
     processTransactions := fun _ state _ snap temp _ => (state, snap, temp);
     tryElect := fun _ state _ snap temp => (None, (state, snap, temp));
     IntermediateRoot := fun state _ => (state, state) |}.

(** The store holds the snapshot of block 7. *)
Definition world : World DB SigCache := mkWorld [root7] [] [].

(** Height 1, declaring epoch 9 begun at 77. *)
Definition block1 : Header :=
  block (hashOf genesis) 1 1000 (extraOf root1 9 77 seal7).

(** Height 8 at time 1030, still in epoch 5. *)
Definition block8 : Header :=
  block (hashOf parent7) 8 1030 (extraOf root8 5 1000 seal7).

(** Height 8 with the time of its parent. *)
Definition block8_same_time : Header :=
  block (hashOf parent7) 8 1027 (extraOf root8 5 1000 seal7).

(** Height 8 declaring a root that the replay does not give. *)
Definition block8_wrong_root : Header :=
  block (hashOf parent7) 8 1030 (extraOf root7 5 1000 seal7).

(** Height 8, yet to be prepared. *)
Definition blank8 : Header := block (hashOf parent7) 8 0 [].

(** Height 8 with an extra that does not decode. *)
Definition block8_malformed : Header :=
  block (hashOf parent7) 8 1030 (zeros 32 ++ [1; 2; 3] ++ seal7).

End Scenario.

(** ** Vocabulary of the properties *)

(** [sameButExtra h1 h2]: the two headers agree on every field other than
    [Extra]. *)
Definition sameButExtra (h1 h2 : Header) : Prop :=
  ParentHash h1 = ParentHash h2 /\ UncleHash h1 = UncleHash h2 /\
  Coinbase h1 = Coinbase h2 /\ StateRoot h1 = StateRoot h2 /\
  TxHash h1 = TxHash h2 /\ ReceiptHash h1 = ReceiptHash h2 /\
  Bloom h1 = Bloom h2 /\ Difficulty h1 = Difficulty h2 /\
  Number h1 = Number h2 /\ GasLimit h1 = GasLimit h2 /\
  GasUsed h1 = GasUsed h2 /\ Time h1 = Time h2 /\
  MixDigest h1 = MixDigest h2 /\ Nonce h1 = Nonce h2.

(** [unsealed e]: the extra field without its last 65 bytes. *)
Definition unsealed (extra : bytes) : bytes :=
  firstn (Z.to_nat (len extra - extraSeal)) extra.

(** The panics that the verifier and the preparer never raise: the slice of
    a short extra in [encodeSigHeader], and [panic(err)]. *)
Definition sealOrErrorPanic (p : PanicValue) : bool :=
  match p with
  | panicSealSlice | panicError _ => true
  | _ => false
  end.

(** ** The other entry points of the engine

    [Author], [VerifySeal], [VerifyHeaders], [FinalizeAndAssemble] and the
    part of [Seal] that runs before its goroutine.  They need a few more
    collaborators, gathered in [Minter]. *)

(** [copy(dst, src)]: as many bytes as fit, the rest of [dst] stays. *)
Definition copyInto (dst src : bytes) : bytes :=
  firstn (List.length dst) src ++ skipn (List.length src) dst.

Section Callers.

Variables DB Snapshot SigCache Logs StateDB Txs : Type.

(** The receipts of a block, and [*types.Block]. *)
Variables Receipts Block : Type.

Local Abbreviation Extra_t := (HeaderExtra.t Logs).

Record Minter : Type := mkMinter {
  signer : Address;                             (* senate.signer *)
  (* senate.signFn on the account and the bytes to sign *)
  signFn : Address -> bytes -> errorOr bytes;
  (* senate.inTurn when the parent is nil *)
  inTurnNil : DB -> params.SenateConfig -> Z -> Address -> result bool;
  (* snap.MintBlock(epoch, number, validator) *)
  MintBlock : Snapshot -> Z -> Z -> Address -> errorOr Snapshot;
  (* senate.processTransactions with the receipts of the block *)
  processTransactionsWith :
    params.SenateConfig -> StateDB -> Header -> Snapshot -> Extra_t -> Txs ->
    Receipts -> StateDB * Snapshot * Extra_t * Receipts;
  (* types.NewBlock(header, txs, nil, receipts, new(trie.Trie)) *)
  NewBlock : Header -> Txs -> Receipts -> Block;
  (* extra[:32] when extra has less than 32 bytes: a panic, or bytes of the
     array behind the slice when its capacity allows *)
  vanityBeyond : bytes -> result bytes
}.

Variable E : Deps DB Snapshot SigCache Logs StateDB Txs.
Variable K : Minter.

Notation "x <- m ;; k" := (bind DB SigCache m (fun x => k))
  (at level 61, m at next level, right associativity).

(** [Author] *)
Definition Author (header : Header) : M DB SigCache Address :=
  ecrecover E header.

(** [senate.inTurn] on a parent that may be nil. *)
Definition inTurnOf (d : DB) (config : params.SenateConfig)
           (parent : option Header) (time : Z) (a : Address) : result bool :=
  match parent with
  | Some p => Ok (inTurn E d config p time a)
  | None => inTurnNil K d config time a
  end.

(** [verifySeal] on a parent that may be nil. *)
Definition verifySealOf (config : params.SenateConfig) (header : Header)
           (parent : option Header) : M DB SigCache unit :=
  match parent with
  | Some p => verifySeal E config header p
  | None =>
      n <- deref DB SigCache (Number header) ;;
      if bigUint64 n =? 0 then throw DB SigCache errUnknownBlock
      else
        a <- ecrecover E header ;;
        d <- getDB DB SigCache ;;
        turn <- liftR DB SigCache (inTurnNil K d config (Time header) a) ;;
        if negb turn then throw DB SigCache errUnauthorized
        else ret DB SigCache tt
  end.

(** [VerifySeal] *)
Definition VerifySeal (header : Header) : M DB SigCache unit :=
  n <- deref DB SigCache (Number header) ;;
  let parent := GetHeader E (ParentHash header) (u64 (bigUint64 n - 1)) in
  config <-
    (if bigInt64 n >? 1
     then d <- getDB DB SigCache ;; try DB SigCache (chainConfig E d parent)
     else ret DB SigCache (senateConfig E)) ;;
  verifySealOf config header parent.

(** The loop of the goroutine of [VerifyHeaders] when nobody aborts:
    [clock i] is the time at the [i]-th header, [done] the headers before
    it.  A panic ends the run. *)
Fixpoint verifyBatch (clock : nat -> Z) (i : nat) (done todo : list Header)
         (w : World DB SigCache) : list (result unit) * World DB SigCache :=
  match todo with
  | [] => ([], w)
  | header :: rest =>
      match verifyHeader E (clock i) header done w with
      | (Panic p, w1) => ([Panic p], w1)
      | (r, w1) =>
          let '(rs, w2) := verifyBatch clock (S i) (done ++ [header]) rest w1 in
          (r :: rs, w2)
      end
  end.

(** [VerifyHeaders]: the results sent, in order.  The numbers of all the
    headers are read first. *)
Definition VerifyHeaders (clock : nat -> Z) (headers : list Header)
           (w : World DB SigCache)
  : result (list (result unit)) * World DB SigCache :=
  if existsb (fun h => match Number h with None => true | Some _ => false end)
       headers
  then (Panic panicNilDereference, w)
  else
    let '(rs, w') := verifyBatch clock 0 [] headers w in
    (Ok rs, w').

(** [Seal], up to the start of its goroutine: the error returned, or the
    sealed header that the goroutine offers once the slot has come. *)
Definition Seal (d : DB) (header : Header) : result Header :=
  match Number header with
  | None => Panic panicNilDereference
  | Some n =>
      let number := bigUint64 n in
      if number =? 0 then Err errUnknownBlock
      else if len (Extra header) <? extraVanity then Err errMissingVanity
      else if len (Extra header) <? extraVanity + extraSeal
           then Err errMissingSignature
      else
        let parent := GetHeader E (ParentHash header) (u64 (number - 1)) in
        match chainConfig E d parent with
        | Failure err => Err err
        | Success config =>
            match inTurnOf d config parent (Time header) (Coinbase header) with
            | Panic p => Panic p
            | Err e => Err e
            | Ok false => Err errUnauthorized
            | Ok true =>
                match SenateRLP E header with
                | Panic p => Panic p
                | Err e => Err e
                | Ok rlp =>
                    match signFn K (signer K) rlp with
                    | Failure err => Err err
                    | Success sigHash =>
                        let cut := Z.to_nat (len (Extra header) - extraSeal) in
                        Ok (setExtra header
                              (firstn cut (Extra header)
                               ++ copyInto (skipn cut (Extra header)) sigHash))
                    end
                end
            end
        end
  end.

(** What [FinalizeAndAssemble] leaves behind. *)
Record Assembled : Type := mkAssembled {
  assembled : result Block;
  headerAfter : Header;
  stateAfter : StateDB;
  worldAfter : World DB SigCache
}.

(** Lines 455-475: root, commit, payload, frame, block. *)
Definition assemble (header : Header) (state : StateDB) (txs : Txs)
           (receipts : Receipts) (snap : Snapshot) (headerExtra : Extra_t)
           (w : World DB SigCache) : Assembled :=
  match snapRoot E snap with
  | Failure err => mkAssembled (Err err) header state w
  | Success root =>
      let headerExtra :=
        HeaderExtra.make root (HeaderExtra.Epoch headerExtra)
          (HeaderExtra.EpochTime headerExtra) (HeaderExtra.Logs_ headerExtra) in
      let w1 := logCall w (CallCommit root) in
      match snapCommit E snap root (db w) with
      | (Some err, d) =>
          mkAssembled (Err err) header state
            (mkWorld d (signatures w1) (calls w1))
      | (None, d) =>
          let w2 := mkWorld d (signatures w1) (calls w1) in
          match Encode E headerExtra with
          | Failure err => mkAssembled (Err err) header state w2
          | Success data =>
              match (if len (Extra header) <? extraVanity
                     then vanityBeyond K (Extra header)
                     else Ok (firstn (Z.to_nat extraVanity) (Extra header))) with
              | Panic p => mkAssembled (Panic p) header state w2
              | Err e => mkAssembled (Err e) header state w2
              | Ok vanity =>
                  let header := setExtra header (vanity ++ data ++ zeros extraSeal) in
                  let '(root', state) :=
                    IntermediateRoot E state (IsEIP158 E (Number header)) in
                  let header := setStateRoot header root' in
                  let header := setUncleHash header (CalcUncleHashNil E) in
                  mkAssembled (Ok (NewBlock K header txs receipts)) header state w2
              end
          end
      end
  end.

(** [FinalizeAndAssemble] *)
Definition FinalizeAndAssemble (header : Header) (state : StateDB) (txs : Txs)
           (receipts : Receipts) (w : World DB SigCache) : Assembled :=
  match Number header with
  | None => mkAssembled (Panic panicNilDereference) header state w
  | Some n =>
      match decodeHeaderExtra E header with
      | Failure err => mkAssembled (Err err) header state w
      | Success oldHeaderExtra =>
          let parent := GetHeader E (ParentHash header) (u64 (bigUint64 n - 1)) in
          let rooted : result Root :=
            if bigInt64 n >? 1 then
              match parent with
              | None => Panic panicNilDereference
              | Some p =>
                  match decodeHeaderExtra E p with
                  | Failure err => Err err
                  | Success parentHeaderExtra =>
                      Ok (HeaderExtra.Root parentHeaderExtra)
                  end
              end
            else Ok zeroRoot in
          match rooted with
          | Panic p => mkAssembled (Panic p) header state w
          | Err e => mkAssembled (Err e) header state w
          | Ok root =>
              let headerExtra :=
                HeaderExtra.make root (HeaderExtra.Epoch oldHeaderExtra)
                  (HeaderExtra.EpochTime oldHeaderExtra) (zeroLogs E) in
              let w1 := logCall w (CallLoadSnapshot root) in
              match loadSnapshot E (db w) root with
              | Failure err => mkAssembled (Err err) header state w1
              | Success snap =>
                  match chainConfig E (db w) parent with
                  | Failure err => mkAssembled (Err err) header state w1
                  | Success config =>
                      let state := accumulateRewards E config state header in
                      match MintBlock K snap (HeaderExtra.Epoch headerExtra)
                              (bigUint64 n) (Coinbase header) with
                      | Failure err => mkAssembled (Err err) header state w1
                      | Success snap =>
                          let '(state, snap, headerExtra, receipts) :=
                            processTransactionsWith K config state header snap
                              headerExtra txs receipts in
                          match tryElect E config state header snap headerExtra with
                          | (Some err, (state, _, _)) =>
                              mkAssembled (Err err) header state w1
                          | (None, (state, snap, headerExtra)) =>
                              assemble header state txs receipts snap headerExtra w1
                          end
                      end
                  end
              end
          end
      end
  end.

End Callers.

Arguments mkMinter {DB Snapshot Logs StateDB Txs Receipts Block}.
Arguments signer {DB Snapshot Logs StateDB Txs Receipts Block} _.
Arguments signFn {DB Snapshot Logs StateDB Txs Receipts Block} _.
Arguments inTurnNil {DB Snapshot Logs StateDB Txs Receipts Block} _.
Arguments MintBlock {DB Snapshot Logs StateDB Txs Receipts Block} _.
Arguments processTransactionsWith {DB Snapshot Logs StateDB Txs Receipts Block} _.
Arguments NewBlock {DB Snapshot Logs StateDB Txs Receipts Block} _.
Arguments vanityBeyond {DB Snapshot Logs StateDB Txs Receipts Block} _.
Arguments Author {DB Snapshot SigCache Logs StateDB Txs} E header _.
Arguments inTurnOf {DB Snapshot SigCache Logs StateDB Txs Receipts Block} E K.
Arguments verifySealOf {DB Snapshot SigCache Logs StateDB Txs Receipts Block} E K.
Arguments VerifySeal {DB Snapshot SigCache Logs StateDB Txs Receipts Block} E K.
Arguments verifyBatch {DB Snapshot SigCache Logs StateDB Txs} E.
Arguments VerifyHeaders {DB Snapshot SigCache Logs StateDB Txs} E.
Arguments Seal {DB Snapshot SigCache Logs StateDB Txs Receipts Block} E K.
Arguments mkAssembled {DB SigCache StateDB Block}.
Arguments assembled {DB SigCache StateDB Block} _.
Arguments headerAfter {DB SigCache StateDB Block} _.
Arguments stateAfter {DB SigCache StateDB Block} _.
Arguments worldAfter {DB SigCache StateDB Block} _.
Arguments assemble {DB Snapshot SigCache Logs StateDB Txs Receipts Block} E K.
Arguments FinalizeAndAssemble {DB Snapshot SigCache Logs StateDB Txs Receipts Block} E K.

(** ** The small chain, minting *)
Module Mint.

Definition Receipts : Type := list Z.
Definition Block : Type := Header.

Definition minter
  : Minter Scenario.DB Scenario.Snapshot Scenario.Logs Scenario.StateDB
      Scenario.Txs Receipts Block :=
  {| signer := 7;
     signFn := fun account _ => Success (zeros 64 ++ [account]);
     inTurnNil := fun _ _ _ _ => Panic panicNilDereference;
     MintBlock := fun snap _ _ _ => Success (Scenario.mint snap);
     processTransactionsWith :=
       fun _ state _ snap headerExtra _ receipts =>
         (state, snap, headerExtra, receipts);
     NewBlock := fun header _ _ => header;
     vanityBeyond := fun _ => Panic panicSliceBounds |}.

(** Block 8 as [Prepare] leaves it at clock 1028. *)
Definition prepared8 : Header :=
  fst (Prepare Scenario.deps [Scenario.root7] 1028 Scenario.blank8).

(** A batch: block 8, then a block 9 that does not name it as parent. *)
Definition stray9 : Header :=
  Scenario.block 1 9 1033 (Scenario.extraOf Scenario.root8 5 1000 Scenario.seal7).

(** Height 1, yet to be prepared. *)
Definition blank1 : Header := Scenario.block (Scenario.hashOf Scenario.genesis) 1 0 [].

(** A header without a number. *)
Definition nameless : Header :=
  mkHeader 0 Scenario.uncles 7 0 0 0 [] (Some 1) None 8000000 0 1030
    (Scenario.extraOf Scenario.root8 5 1000 Scenario.seal7) 0 (zeros 8).

(** A header numbered 2^64. *)
Definition block_2_64 : Header :=
  Scenario.block 0 (2 ^ 64) 1030
    (Scenario.extraOf Scenario.root8 5 1000 Scenario.seal7).

(** Block 8 finalized, before the seal. *)
Definition unsealed8 : Header :=
  setExtra Scenario.block8 (Scenario.extraOf Scenario.root8 5 1000 (zeros 65)).

(** The same collaborators, but for a configuration with an epoch of 0 and
    an election that changes the epoch trie. *)
Definition oddDeps
  : Deps Scenario.DB Scenario.Snapshot Scenario.SigCache Scenario.Logs
      Scenario.StateDB Scenario.Txs :=
  {| senateConfig := senateConfig Scenario.deps;
     uncleHash := uncleHash Scenario.deps;
     CalcUncleHashNil := CalcUncleHashNil Scenario.deps;
     GetHeader := GetHeader Scenario.deps;
     IsEIP158 := IsEIP158 Scenario.deps;
     HeaderHash := HeaderHash Scenario.deps;
     decodeHeaderExtra := decodeHeaderExtra Scenario.deps;
     Encode := Encode Scenario.deps;
     Equal := Equal Scenario.deps;
     zeroLogs := zeroLogs Scenario.deps;
     nilSnapshot := nilSnapshot Scenario.deps;
     newSnapshot := newSnapshot Scenario.deps;
     loadSnapshot := loadSnapshot Scenario.deps;
     snapApply := snapApply Scenario.deps;
     snapRoot := snapRoot Scenario.deps;
     snapCommit := snapCommit Scenario.deps;
     chainConfigByHash := fun _ _ => Success (params.mkConfig 3 0);
     chainConfig := chainConfig Scenario.deps;
     inTurn := inTurn Scenario.deps;
     sigGet := sigGet Scenario.deps;
     sigAdd := sigAdd Scenario.deps;
     Ecrecover := Ecrecover Scenario.deps;
     Keccak256 := Keccak256 Scenario.deps;
     rlpEncode := rlpEncode Scenario.deps;
     accumulateRewards := accumulateRewards Scenario.deps;
     processTransactions := processTransactions Scenario.deps;
     tryElect :=
       fun _ state _ snap temp =>
         (None,
          (state, snap,
           HeaderExtra.make
             (mkRoot 1 2 3 4 (EpochHash (HeaderExtra.Root temp) + 1) 8 0 0)
             (HeaderExtra.Epoch temp) (HeaderExtra.EpochTime temp) tt));
     IntermediateRoot := IntermediateRoot Scenario.deps |}.

End Mint.

(** ** Vocabulary of the panics *)


(** ** The small chain with an encoder that fails *)
Module Faulty.

Definition deps
  : Deps Scenario.DB Scenario.Snapshot Scenario.SigCache Scenario.Logs
      Scenario.StateDB Scenario.Txs :=
  {| senateConfig := senateConfig Scenario.deps;
     uncleHash := uncleHash Scenario.deps;
     CalcUncleHashNil := CalcUncleHashNil Scenario.deps;
     GetHeader := GetHeader Scenario.deps;
     IsEIP158 := IsEIP158 Scenario.deps;
     HeaderHash := HeaderHash Scenario.deps;
     decodeHeaderExtra := decodeHeaderExtra Scenario.deps;
     Encode := Encode Scenario.deps;
     Equal := Equal Scenario.deps;
     zeroLogs := zeroLogs Scenario.deps;
     nilSnapshot := nilSnapshot Scenario.deps;
     newSnapshot := newSnapshot Scenario.deps;
     loadSnapshot := loadSnapshot Scenario.deps;
     snapApply := snapApply Scenario.deps;
     snapRoot := snapRoot Scenario.deps;
     snapCommit := snapCommit Scenario.deps;
     chainConfigByHash := chainConfigByHash Scenario.deps;
     chainConfig := chainConfig Scenario.deps;
     inTurn := inTurn Scenario.deps;
     sigGet := sigGet Scenario.deps;
     sigAdd := sigAdd Scenario.deps;
     Ecrecover := Ecrecover Scenario.deps;
     Keccak256 := Keccak256 Scenario.deps;
     rlpEncode := fun _ => Failure (errCollaborator "negative big.Int");
     accumulateRewards := accumulateRewards Scenario.deps;
     processTransactions := processTransactions Scenario.deps;
     tryElect := tryElect Scenario.deps;
     IntermediateRoot := IntermediateRoot Scenario.deps |}.

End Faulty.

(** * Properties *)

Lemma string_app_assoc (a b c : string) :
  ((a ++ b) ++ c = a ++ (b ++ c))%string.
Proof.
  induction a as [|ch a IH]; simpl; [reflexivity | now rewrite IH].
Qed.

Lemma string_app_nil_r (a : string) : (a ++ "" = a)%string.
Proof.
  induction a as [|ch a IH]; simpl; [reflexivity | now rewrite IH].
Qed.

Lemma Contains_here (s b : string) : Contains s (s ++ b).
Proof. exists ""%string, b. reflexivity. Qed.

Lemma Contains_last (s : string) : Contains s s.
Proof. exists ""%string, ""%string. simpl. now rewrite string_app_nil_r. Qed.

Lemma Contains_skip (s u t : string) : Contains s t -> Contains s (u ++ t).
Proof.
  intros [a [b ->]]. exists (u ++ a)%string, b.
  now rewrite string_app_assoc.
Qed.

Create HintDb senate.

#[local] Hint Resolve Contains_here Contains_last Contains_skip : senate.

(** C8. For every root, the string built by [Root2String] contains the
    rendering of each of the eight component hashes: CandidateHash (printed
    twice), ConfigHash, DeclareHash, DelegateHash, EpochHash, MintCntHash,
    ProposalHash and VoteHash. *)
Theorem Root2String_lists_every_hash (HashString : Hash -> string) (root : Root) :
  let s := Root2String HashString root in
  Contains (HashString (CandidateHash root)) s /\
  Contains (HashString (ConfigHash root)) s /\
  Contains (HashString (DeclareHash root)) s /\
  Contains (HashString (DelegateHash root)) s /\
  Contains (HashString (EpochHash root)) s /\
  Contains (HashString (MintCntHash root)) s /\
  Contains (HashString (ProposalHash root)) s /\
  Contains (HashString (VoteHash root)) s.
Proof.
  cbv zeta. unfold Root2String.
  repeat split; auto 60 with senate.
Qed.

Lemma prefix_Contains (s t : string) :
  String.prefix s t = true -> exists b, t = (s ++ b)%string.
Proof.
  revert t. induction s as [|a s IH]; intros t H.
  - exists t. reflexivity.
  - destruct t as [|b t]; [discriminate |]. simpl in H.
    destruct (ascii_dec a b) as [-> | _]; [| discriminate].
    destruct (IH t H) as [r ->]. exists r. reflexivity.
Qed.

Lemma occursb_Contains (s t : string) : occursb s t = true -> Contains s t.
Proof.
  induction t as [|c t IH]; cbn [occursb].
  - destruct (String.prefix s "") eqn:Hp; [| intros H; discriminate H].
    intros _. destruct (prefix_Contains _ _ Hp) as [b ->]. apply Contains_here.
  - destruct (String.prefix s (String c t)) eqn:Hp.
    + intros _. destruct (prefix_Contains _ _ Hp) as [b ->]. apply Contains_here.
    + intros H. apply (Contains_skip s (String c EmptyString) t). apply IH, H.
Qed.

(** The root of block 7, printed: each of its hashes is found. *)
Example Root2String_of_root7 :
  forallb
    (fun h => occursb (Scenario.hashString h)
                (Root2String Scenario.hashString Scenario.root7))
    [1; 2; 3; 4; 5; 7; 0; 0] = true.
Proof. vm_compute. reflexivity. Qed.

(** ** Equality of roots *)

Lemma Root_eqb_eq (a b : Root) : Root_eqb a b = true <-> a = b.
Proof.
  destruct a, b; unfold Root_eqb; simpl.
  rewrite !andb_true_iff, !Z.eqb_eq. split.
  - intros [[[[[[[-> ->] ->] ->] ->] ->] ->] ->]. reflexivity.
  - intros H; injection H as -> -> -> -> -> -> -> ->. repeat split.
Qed.

Lemma Root_eqb_neq (a b : Root) : Root_eqb a b = false <-> a <> b.
Proof.
  rewrite <- Root_eqb_eq. destruct (Root_eqb a b); split; congruence.
Qed.

(** ** The seal hash *)

Section SealHashFacts.

Context {DB Snapshot SigCache Logs StateDB Txs : Type}.
Variable E : Deps DB Snapshot SigCache Logs StateDB Txs.

Lemma encodeSigHeader_short (h : Header) :
  len (Extra h) < 65 <-> encodeSigHeader E h = Panic panicSealSlice.
Proof.
  unfold encodeSigHeader, SignatureLength.
  destruct (Z.ltb_spec (len (Extra h)) 65) as [Hlt | Hge].
  - split; [reflexivity | intros _; exact Hlt].
  - split; [lia |].
    destruct (rlpEncode E _); discriminate.
Qed.

Lemma SealHash_short (h : Header) :
  len (Extra h) < 65 <-> SealHash E h = Panic panicSealSlice.
Proof.
  rewrite encodeSigHeader_short. unfold SealHash.
  destruct (encodeSigHeader E h) as [b | e | p]; split; congruence.
Qed.

Lemma SealHash_never_error (h : Header) (e : Error) : SealHash E h <> Err e.
Proof.
  unfold SealHash, encodeSigHeader.
  destruct (len (Extra h) <? SignatureLength); [discriminate |].
  destruct (rlpEncode E _); discriminate.
Qed.

Lemma SealHash_panics (h : Header) (p : PanicValue) :
  SealHash E h = Panic p ->
  (p = panicSealSlice /\ len (Extra h) < 65) \/
  (exists e, p = panicCantEncode e /\ 65 <= len (Extra h)).
Proof.
  unfold SealHash, encodeSigHeader, SignatureLength.
  destruct (Z.ltb_spec (len (Extra h)) 65) as [Hlt | Hge].
  - intros [= <-]. left. split; [reflexivity | exact Hlt].
  - destruct (rlpEncode E _) as [b | e]; [discriminate |].
    intros [= <-]. right. exists e. split; [reflexivity | exact Hge].
Qed.

(** C5. Two headers whose extra fields have at least 65 bytes each, which
    agree on every other field and on the extra field without its last 65
    bytes, have the same seal hash: the seal bytes do not enter it. *)
Theorem SealHash_independent_of_seal (h1 h2 : Header) :
  65 <= len (Extra h1) ->
  65 <= len (Extra h2) ->
  sameButExtra h1 h2 ->
  unsealed (Extra h1) = unsealed (Extra h2) ->
  SealHash E h1 = SealHash E h2 /\ SealHash E h1 <> Panic panicSealSlice.
Proof.
  intros H1 H2 Hsame Hextra. split.
  - unfold sameButExtra in Hsame.
    destruct Hsame as (Ha & Hb & Hc & Hd & He & Hf & Hg & Hh & Hi & Hj & Hk & Hl & Hm & Hn).
    unfold unsealed, extraSeal in Hextra.
    unfold SealHash, encodeSigHeader, SignatureLength.
    destruct (Z.ltb_spec (len (Extra h1)) 65); [lia |].
    destruct (Z.ltb_spec (len (Extra h2)) 65); [lia |].
    rewrite Ha, Hb, Hc, Hd, He, Hf, Hg, Hh, Hi, Hj, Hk, Hl, Hm, Hn, Hextra.
    reflexivity.
  - intros Hp. apply SealHash_short in Hp. lia.
Qed.

End SealHashFacts.

(** The seal of block 8 replaced by 65 zero bytes, then by another
    signature: the seal hash stays. *)
Lemma SealHash_independent_of_seal_witness :
  SealHash Scenario.deps Scenario.block8 =
  SealHash Scenario.deps
    (setExtra Scenario.block8
       (Scenario.extraOf Scenario.root8 5 1000 (repeat 9 65))) /\
  SealHash Scenario.deps Scenario.block8 <> Panic panicSealSlice.
Proof.
  apply (SealHash_independent_of_seal Scenario.deps Scenario.block8
           (setExtra Scenario.block8
              (Scenario.extraOf Scenario.root8 5 1000 (repeat 9 65)))).
  - vm_compute. discriminate.
  - vm_compute. discriminate.
  - unfold sameButExtra. repeat split.
  - vm_compute. reflexivity.
Defined.

(** ** The verifier *)

Section VerifierFacts.

Context {DB Snapshot SigCache Logs StateDB Txs : Type}.
Variable E : Deps DB Snapshot SigCache Logs StateDB Txs.

Local Abbreviation World_t := (World DB SigCache).
Local Abbreviation Extra_t := (HeaderExtra.t Logs).

Ltac step :=
  unfold bind, try, ret, throw, panic, liftR, getDB, record, deref in *;
  simpl in *.

Ltac quiet :=
  left; repeat split; first [reflexivity | assumption | discriminate].

(** *** The signer *)

Lemma ecrecover_frame (h : Header) (w : World_t) :
  db (snd (ecrecover E h w)) = db w /\
  calls (snd (ecrecover E h w)) = calls w.
Proof.
  unfold ecrecover. destruct (sigGet E (signatures w) (HeaderHash E h)) as [[a|] c].
  - simpl. split; reflexivity.
  - destruct (len (Extra h) <? extraSeal); step; [split; reflexivity |].
    destruct (SealHash E h) as [sh | e | p]; simpl; try (split; reflexivity).
    destruct (Ecrecover E sh _) as [[|b rest] | e]; simpl; split; reflexivity.
Qed.

Lemma ecrecover_panics (h : Header) (w : World_t) (p : PanicValue) :
  fst (ecrecover E h w) = Panic p -> sealOrErrorPanic p = false.
Proof.
  unfold ecrecover. destruct (sigGet E (signatures w) (HeaderHash E h)) as [[a|] c].
  - simpl. discriminate.
  - unfold extraSeal.
    destruct (Z.ltb_spec (len (Extra h)) 65) as [Hlt | Hge]; step; [discriminate |].
    destruct (SealHash E h) as [sh | e | q] eqn:Hs; simpl.
    + destruct (Ecrecover E sh _) as [[|b rest] | e]; simpl;
        intros [= <-] || discriminate. reflexivity.
    + discriminate.
    + intros [= <-]. apply SealHash_panics in Hs.
      destruct Hs as [[-> Hlt] | [e [-> _]]]; [lia | reflexivity].
Qed.

Lemma verifySeal_frame (cfg : params.SenateConfig) (h parent : Header)
      (w : World_t) :
  db (snd (verifySeal E cfg h parent w)) = db w /\
  calls (snd (verifySeal E cfg h parent w)) = calls w.
Proof.
  unfold verifySeal. destruct (Number h) as [n|]; step; [| split; reflexivity].
  destruct (bigUint64 n =? 0); simpl; [split; reflexivity |].
  pose proof (ecrecover_frame h w) as [Hd Hc].
  destruct (ecrecover E h w) as [[a | e | p] w1]; simpl in *;
    try (split; assumption).
  destruct (inTurn E (db w1) cfg parent (Time h) a); simpl; split; assumption.
Qed.

Lemma verifySeal_panics (cfg : params.SenateConfig) (h parent : Header)
      (w : World_t) (p : PanicValue) :
  fst (verifySeal E cfg h parent w) = Panic p -> sealOrErrorPanic p = false.
Proof.
  unfold verifySeal. destruct (Number h) as [n|]; step;
    [| intros [= <-]; reflexivity].
  destruct (bigUint64 n =? 0); simpl; [discriminate |].
  pose proof (ecrecover_panics h w) as Hp.
  destruct (ecrecover E h w) as [[a | e | q] w1]; simpl in *.
  - destruct (inTurn E (db w1) cfg parent (Time h) a); simpl; discriminate.
  - discriminate.
  - intros [= <-]. apply Hp. reflexivity.
Qed.

(** *** Replay, comparison of the roots, seal, commit *)

Lemma replayAndSeal_wrong_root (cfg : params.SenateConfig) (snap snap' : Snapshot)
      (h parent : Header) (hx : Extra_t) (root : Root) (w : World_t) :
  snapApply E snap h hx = Success snap' ->
  snapRoot E snap' = Success root ->
  root <> HeaderExtra.Root hx ->
  replayAndSeal E cfg snap h parent hx w = (Err errInvalidTrieRoot, w).
Proof.
  intros Ha Hr Hne. unfold replayAndSeal. step. rewrite Ha. simpl.
  rewrite Hr. simpl.
  apply Root_eqb_neq in Hne. rewrite Hne. reflexivity.
Qed.

Lemma replayAndSeal_accepts (cfg : params.SenateConfig) (snap : Snapshot)
      (h parent : Header) (hx : Extra_t) (w w' : World_t) :
  replayAndSeal E cfg snap h parent hx w = (Ok tt, w') ->
  exists snap',
    snapApply E snap h hx = Success snap' /\
    snapRoot E snap' = Success (HeaderExtra.Root hx) /\
    fst (verifySeal E cfg h parent w) = Ok tt /\
    calls w' = calls w ++ [CallCommit (HeaderExtra.Root hx)].
Proof.
  unfold replayAndSeal. step.
  destruct (snapApply E snap h hx) as [snap' | e] eqn:Ha; simpl; [| discriminate].
  destruct (snapRoot E snap') as [root | e] eqn:Hr; simpl; [| discriminate].
  destruct (Root_eqb root (HeaderExtra.Root hx)) eqn:Hroot; simpl; [| discriminate].
  apply Root_eqb_eq in Hroot. subst root.
  pose proof (verifySeal_frame cfg h parent w) as [Hd Hc].
  destruct (verifySeal E cfg h parent w) as [[[] | e | p] w1]; simpl in *;
    try discriminate.
  unfold logCall; simpl.
  destruct (snapCommit E snap' (HeaderExtra.Root hx) (db w1)) as [[e|] d];
    simpl; [discriminate |].
  intros [= <-]. exists snap'. simpl. rewrite Hc. repeat split; auto.
Qed.

(** Whatever the outcome, the replay adds at most one call to the log, the
    commit, and only after the roots agreed and the seal was accepted. *)
Lemma replayAndSeal_calls (cfg : params.SenateConfig) (snap : Snapshot)
      (h parent : Header) (hx : Extra_t) (w : World_t) :
  let r := replayAndSeal E cfg snap h parent hx w in
  (calls (snd r) = calls w /\ db (snd r) = db w /\ fst r <> Ok tt \/
   calls (snd r) = calls w ++ [CallCommit (HeaderExtra.Root hx)] /\
   (fst r = Ok tt \/ fst r = Err errSnapshotWrite)) /\
  forall p, fst r = Panic p -> sealOrErrorPanic p = false.
Proof.
  cbv zeta. unfold replayAndSeal. step.
  destruct (snapApply E snap h hx) as [snap' | e]; simpl;
    [| split; [quiet | discriminate]].
  destruct (snapRoot E snap') as [root | e]; simpl;
    [| split; [quiet | discriminate]].
  destruct (Root_eqb root (HeaderExtra.Root hx)) eqn:Hroot; simpl;
    [| split; [quiet | discriminate]].
  apply Root_eqb_eq in Hroot. subst root.
  pose proof (verifySeal_frame cfg h parent w) as [Hd Hc].
  pose proof (verifySeal_panics cfg h parent w) as Hp.
  destruct (verifySeal E cfg h parent w) as [[[] | e | p] w1]; simpl in *.
  - unfold logCall; simpl.
    destruct (snapCommit E snap' (HeaderExtra.Root hx) (db w1)) as [[e|] d];
      simpl; (split; [right; rewrite Hc; split; auto | discriminate]).
  - split; [quiet | discriminate].
  - split; [quiet |].
    intros q [= <-]. apply Hp. reflexivity.
Qed.

(** *** The epoch check *)

Lemma epochContinuous_spec (hx phx : Extra_t) (t : Z) :
  epochContinuous hx phx t = true <->
  (HeaderExtra.Epoch hx = HeaderExtra.Epoch phx /\
   HeaderExtra.EpochTime hx = HeaderExtra.EpochTime phx) \/
  (HeaderExtra.Epoch hx = u64 (HeaderExtra.Epoch phx + 1) /\
   HeaderExtra.EpochTime hx = t).
Proof.
  unfold epochContinuous.
  destruct (Z.eqb_spec (HeaderExtra.Epoch hx) (HeaderExtra.Epoch phx));
  destruct (Z.eqb_spec (HeaderExtra.EpochTime hx) (HeaderExtra.EpochTime phx));
  destruct (Z.eqb_spec (HeaderExtra.Epoch hx) (u64 (HeaderExtra.Epoch phx + 1)));
  destruct (Z.eqb_spec (HeaderExtra.EpochTime hx) t);
  simpl; split; intros H; try reflexivity; try discriminate; try tauto;
  destruct H as [[? ?] | [? ?]]; tauto.
Qed.

Lemma epochContinuous_refl (hx : Extra_t) (t : Z) :
  epochContinuous hx hx t = true.
Proof. apply epochContinuous_spec. left. split; reflexivity. Qed.

(** *** The cascading checks, unfolded *)

(** What [verifyCascadingFields] does once the parent is at hand. *)
Lemma verifyCascadingFields_unfold (h parent : Header) (parents : list Header)
      (n pn : Z) (w : World_t) :
  Number h = Some n ->
  bigUint64 n <> 0 ->
  resolveParent E h (bigUint64 n) parents = Some parent ->
  Number parent = Some pn ->
  verifyCascadingFields E h parents w =
  if negb (bigUint64 pn =? u64 (bigUint64 n - 1))
     || negb (HeaderHash E parent =? ParentHash h)
  then (Err ErrUnknownAncestor, w)
  else if Time parent >? Time h then (Err ErrInvalidTimestamp, w)
  else
    match decodeHeaderExtra E h with
    | Failure e => (Err e, w)
    | Success hx =>
        if bigInt64 pn =? 0 then
          match newSnapshot E (db w) with
          | Failure e => (Err e, logCall w CallNewSnapshot)
          | Success snap =>
              replayAndSeal E (senateConfig E) snap h parent hx
                (logCall w CallNewSnapshot)
          end
        else
          match decodeHeaderExtra E parent with
          | Failure e => (Err e, w)
          | Success phx =>
              match chainConfigByHash E (db w)
                      (ConfigHash (HeaderExtra.Root phx)) with
              | Failure e => (Err e, w)
              | Success cfg =>
                  let w1 := logCall w (CallLoadSnapshot (HeaderExtra.Root phx)) in
                  match loadSnapshot E (db w) (HeaderExtra.Root phx) with
                  | Failure e => (Err e, w1)
                  | Success snap =>
                      if epochContinuous hx phx (Time h)
                      then replayAndSeal E cfg snap h parent hx w1
                      else (Err ErrInvalidTimestamp, w1)
                  end
              end
          end
    end.
Proof.
  intros Hn Hnz Hp Hpn. unfold verifyCascadingFields.
  rewrite Hn. step.
  destruct (Z.eqb_spec (bigUint64 n) 0) as [Hz | _]; [contradiction |].
  rewrite Hp, Hpn. simpl.
  destruct (negb (bigUint64 pn =? u64 (bigUint64 n - 1))
            || negb (HeaderHash E parent =? ParentHash h)); [reflexivity |].
  destruct (Time parent >? Time h); [reflexivity |].
  destruct (decodeHeaderExtra E h) as [hx | e]; simpl; [| reflexivity].
  destruct (bigInt64 pn =? 0); simpl.
  - destruct (newSnapshot E (db w)) as [snap | e]; simpl; [| reflexivity].
    rewrite epochContinuous_refl. reflexivity.
  - destruct (decodeHeaderExtra E parent) as [phx | e]; simpl; [| reflexivity].
    destruct (chainConfigByHash E (db w) _) as [cfg | e]; simpl; [| reflexivity].
    destruct (loadSnapshot E (db w) _) as [snap | e]; simpl; [| reflexivity].
    destruct (epochContinuous hx phx (Time h)); reflexivity.
Qed.

(** A header earlier than its parent is rejected. *)
Lemma verifyCascadingFields_earlier_than_parent (h parent : Header)
      (parents : list Header) (n pn : Z) (w : World_t) :
  Number h = Some n ->
  bigUint64 n <> 0 ->
  resolveParent E h (bigUint64 n) parents = Some parent ->
  Number parent = Some pn ->
  bigUint64 pn = u64 (bigUint64 n - 1) ->
  HeaderHash E parent = ParentHash h ->
  Time parent > Time h ->
  verifyCascadingFields E h parents w = (Err ErrInvalidTimestamp, w).
Proof.
  intros Hn Hnz Hp Hpn Hnum Hh Ht.
  rewrite (verifyCascadingFields_unfold h parent parents n pn w Hn Hnz Hp Hpn).
  rewrite Hnum, Hh, !Z.eqb_refl. simpl.
  destruct (Z.gtb_spec (Time parent) (Time h)); [reflexivity | lia].
Qed.

(** The cascading checks stop at once without a parent, and panic on a
    parent without a number. *)
Lemma verifyCascadingFields_no_parent (h : Header) (parents : list Header)
      (n : Z) (w : World_t) :
  Number h = Some n ->
  bigUint64 n <> 0 ->
  resolveParent E h (bigUint64 n) parents = None ->
  verifyCascadingFields E h parents w = (Err ErrUnknownAncestor, w).
Proof.
  intros Hn Hnz Hp. unfold verifyCascadingFields. rewrite Hn. step.
  destruct (Z.eqb_spec (bigUint64 n) 0) as [Hz | _]; [contradiction |].
  rewrite Hp. reflexivity.
Qed.

Lemma verifyCascadingFields_nil_number (h parent : Header)
      (parents : list Header) (n : Z) (w : World_t) :
  Number h = Some n ->
  bigUint64 n <> 0 ->
  resolveParent E h (bigUint64 n) parents = Some parent ->
  Number parent = None ->
  verifyCascadingFields E h parents w = (Panic panicNilDereference, w).
Proof.
  intros Hn Hnz Hp Hpn. unfold verifyCascadingFields. rewrite Hn. step.
  destruct (Z.eqb_spec (bigUint64 n) 0) as [Hz | _]; [contradiction |].
  rewrite Hp, Hpn. reflexivity.
Qed.

Lemma commits_logCall (w : World_t) (c : Call) :
  isCommit c = false ->
  filter isCommit (calls (logCall w c)) = filter isCommit (calls w).
Proof.
  intros Hc. unfold logCall. simpl. rewrite filter_app. simpl.
  rewrite Hc. apply app_nil_r.
Qed.

(** C1. For a header above the genesis block: the cascading checks accept
    it only if the root that its extra declares is the root of the
    snapshot of its parent (a fresh one when the parent is the genesis
    block, else the one stored under the root that the parent declares)
    after the header was applied to it; and when the root so computed
    differs from the declared one, the header is not accepted, nothing is
    committed, and the error, once the checks that come before pass, is
    the invalid trie root. *)
Theorem verifyCascadingFields_checks_replayed_root
        (h : Header) (parents : list Header) (n : Z) (w : World_t) :
  Number h = Some n ->
  bigUint64 n <> 0 ->
  let r := verifyCascadingFields E h parents w in
  (fst r = Ok tt ->
   exists parent pn hx snap0 snap1,
     resolveParent E h (bigUint64 n) parents = Some parent /\
     Number parent = Some pn /\
     decodeHeaderExtra E h = Success hx /\
     snapshotOfParent E (db w) parent pn = Success snap0 /\
     snapApply E snap0 h hx = Success snap1 /\
     snapRoot E snap1 = Success (HeaderExtra.Root hx)) /\
  (forall parent pn hx snap0 snap1 root,
     resolveParent E h (bigUint64 n) parents = Some parent ->
     Number parent = Some pn ->
     decodeHeaderExtra E h = Success hx ->
     snapshotOfParent E (db w) parent pn = Success snap0 ->
     snapApply E snap0 h hx = Success snap1 ->
     snapRoot E snap1 = Success root ->
     root <> HeaderExtra.Root hx ->
     fst r <> Ok tt /\
     db (snd r) = db w /\
     filter isCommit (calls (snd r)) = filter isCommit (calls w) /\
     (bigUint64 pn = u64 (bigUint64 n - 1) ->
      HeaderHash E parent = ParentHash h ->
      Time parent <= Time h ->
      (bigInt64 pn <> 0 ->
       exists phx cfg,
         decodeHeaderExtra E parent = Success phx /\
         chainConfigByHash E (db w) (ConfigHash (HeaderExtra.Root phx)) =
           Success cfg /\
         epochContinuous hx phx (Time h) = true) ->
      fst r = Err errInvalidTrieRoot)).
Proof.
  intros Hn Hnz. cbv zeta. split.
  - intros Hok.
    destruct (resolveParent E h (bigUint64 n) parents) as [parent|] eqn:Hp;
      [| rewrite (verifyCascadingFields_no_parent h parents n w Hn Hnz Hp) in Hok;
         discriminate].
    destruct (Number parent) as [pn|] eqn:Hpn;
      [| rewrite (verifyCascadingFields_nil_number h parent parents n w Hn Hnz Hp Hpn)
           in Hok; discriminate].
    rewrite (verifyCascadingFields_unfold h parent parents n pn w Hn Hnz Hp Hpn) in Hok.
    destruct (negb (bigUint64 pn =? u64 (bigUint64 n - 1))
              || negb (HeaderHash E parent =? ParentHash h)); [discriminate |].
    destruct (Time parent >? Time h); [discriminate |].
    destruct (decodeHeaderExtra E h) as [hx | e] eqn:Hx; [| discriminate].
    exists parent, pn, hx. unfold snapshotOfParent.
    destruct (bigInt64 pn =? 0).
    + destruct (newSnapshot E (db w)) as [snap | e] eqn:Hs; [| discriminate].
      destruct (replayAndSeal E (senateConfig E) snap h parent hx _)
        as [res w'] eqn:Hr.
      simpl in Hok. subst res.
      apply replayAndSeal_accepts in Hr. destruct Hr as (snap1 & Ha & Hr & _).
      exists snap, snap1. repeat split; assumption.
    + destruct (decodeHeaderExtra E parent) as [phx | e] eqn:Hpx; [| discriminate].
      destruct (chainConfigByHash E (db w) _) as [cfg | e]; [| discriminate].
      cbv zeta in Hok.
      destruct (loadSnapshot E (db w) _) as [snap | e] eqn:Hs; [| discriminate].
      destruct (epochContinuous hx phx (Time h)); [| discriminate].
      destruct (replayAndSeal E cfg snap h parent hx _) as [res w'] eqn:Hr.
      simpl in Hok. subst res.
      apply replayAndSeal_accepts in Hr. destruct Hr as (snap1 & Ha & Hr & _).
      exists snap, snap1. repeat split; assumption.
  - intros parent pn hx snap0 snap1 root Hp Hpn Hx Hs Ha Hr Hne.
    rewrite (verifyCascadingFields_unfold h parent parents n pn w Hn Hnz Hp Hpn).
    rewrite Hx. unfold snapshotOfParent in Hs.
    destruct (Z.eqb_spec (bigUint64 pn) (u64 (bigUint64 n - 1))) as [Hnum | Hnum];
      simpl; [| repeat split; try discriminate; intros; contradiction].
    destruct (Z.eqb_spec (HeaderHash E parent) (ParentHash h)) as [Hh | Hh];
      simpl; [| repeat split; try discriminate; intros; contradiction].
    destruct (Z.gtb_spec (Time parent) (Time h)) as [Ht | Ht];
      [repeat split; try discriminate; intros; lia |].
    destruct (Z.eqb_spec (bigInt64 pn) 0) as [Hg | Hg].
    + rewrite Hs.
      rewrite (replayAndSeal_wrong_root _ snap0 snap1 h parent hx root _ Ha Hr Hne).
      simpl. repeat split; try discriminate.
      rewrite <- (commits_logCall w CallNewSnapshot eq_refl). reflexivity.
    + destruct (decodeHeaderExtra E parent) as [phx | e] eqn:Hpx; [| discriminate].
      destruct (chainConfigByHash E (db w) _) as [cfg | e] eqn:Hcfg.
      * cbv zeta. rewrite Hs.
        destruct (epochContinuous hx phx (Time h)) eqn:Hcont.
        -- rewrite (replayAndSeal_wrong_root _ snap0 snap1 h parent hx root _ Ha Hr Hne).
           simpl. repeat split; try discriminate.
           rewrite <- (commits_logCall w (CallLoadSnapshot (HeaderExtra.Root phx)) eq_refl).
           reflexivity.
        -- simpl. repeat split; try discriminate.
           ++ rewrite <- (commits_logCall w (CallLoadSnapshot (HeaderExtra.Root phx)) eq_refl).
              reflexivity.
           ++ intros _ _ _ Hreach. destruct (Hreach Hg) as (phx' & cfg' & H1 & _ & H3).
              injection H1 as <-. congruence.
      * simpl. repeat split; try discriminate.
        intros _ _ _ Hreach. destruct (Hreach Hg) as (phx' & cfg' & H1 & H2 & _).
        injection H1 as <-. congruence.
Qed.

(** C3 (amended). For a header whose parent is not the genesis block: if
    the cascading checks accept it, the pair (Epoch, EpochTime) of its
    extra equals the pair of its parent, or is the parent's epoch plus one
    (in [uint64]) with the time of the header; a header whose pair is
    neither is never accepted, and once its parent, the configuration and
    the snapshot are found the error is the invalid timestamp. *)
Theorem epoch_continuity_above_height_one
        (h parent : Header) (parents : list Header) (n pn : Z)
        (hx phx : Extra_t) (w : World_t) :
  Number h = Some n ->
  bigUint64 n <> 0 ->
  resolveParent E h (bigUint64 n) parents = Some parent ->
  Number parent = Some pn ->
  bigInt64 pn <> 0 ->
  decodeHeaderExtra E h = Success hx ->
  decodeHeaderExtra E parent = Success phx ->
  let r := verifyCascadingFields E h parents w in
  let continues :=
    (HeaderExtra.Epoch hx = HeaderExtra.Epoch phx /\
     HeaderExtra.EpochTime hx = HeaderExtra.EpochTime phx) \/
    (HeaderExtra.Epoch hx = u64 (HeaderExtra.Epoch phx + 1) /\
     HeaderExtra.EpochTime hx = Time h) in
  (fst r = Ok tt -> continues) /\
  (~ continues ->
   fst r <> Ok tt /\
   (bigUint64 pn = u64 (bigUint64 n - 1) ->
    HeaderHash E parent = ParentHash h ->
    (exists cfg,
       chainConfigByHash E (db w) (ConfigHash (HeaderExtra.Root phx)) =
         Success cfg) ->
    (exists snap,
       loadSnapshot E (db w) (HeaderExtra.Root phx) = Success snap) ->
    fst r = Err ErrInvalidTimestamp)).
Proof.
  intros Hn Hnz Hp Hpn Hg Hx Hpx. cbv zeta.
  rewrite (verifyCascadingFields_unfold h parent parents n pn w Hn Hnz Hp Hpn).
  rewrite Hx, Hpx.
  destruct (Z.eqb_spec (bigInt64 pn) 0) as [Hz | _]; [contradiction |].
  rewrite <- epochContinuous_spec.
  destruct (Z.eqb_spec (bigUint64 pn) (u64 (bigUint64 n - 1))) as [Hnum | Hnum];
    simpl; [| split; [discriminate | intros _; split;
                                     [discriminate | intros; contradiction]]].
  destruct (Z.eqb_spec (HeaderHash E parent) (ParentHash h)) as [Hh | Hh];
    simpl; [| split; [discriminate | intros _; split;
                                     [discriminate | intros; contradiction]]].
  destruct (Time parent >? Time h);
    [split; [discriminate | intros _; split; [discriminate | reflexivity]] |].
  destruct (chainConfigByHash E (db w) _) as [cfg | e];
    [| split; [discriminate |
               intros _; split; [discriminate | intros _ _ [c Hc]; discriminate]]].
  cbv zeta.
  destruct (loadSnapshot E (db w) _) as [snap | e];
    [| split; [discriminate |
               intros _; split; [discriminate | intros _ _ _ [s Hs]; discriminate]]].
  destruct (epochContinuous hx phx (Time h)).
  - split; [reflexivity | intros Hc; exfalso; apply Hc; reflexivity].
  - split; [discriminate | intros _; split; [discriminate | reflexivity]].
Qed.

(** C10. For a header at height 1 whose parent is the genesis block and
    which passes the checks on its ancestor: the extra of the parent is
    taken to be the extra of the header itself, so that the epoch check
    holds whatever pair the header declares; the cascading checks are then
    the replay on a fresh snapshot under the engine's own configuration,
    and the store is asked for a fresh snapshot, never for a stored one. *)
Theorem height_one_fresh_snapshot_no_epoch_check
        (h parent : Header) (parents : list Header) (n pn : Z)
        (hx : Extra_t) (w : World_t) :
  Number h = Some n ->
  bigUint64 n = 1 ->
  resolveParent E h (bigUint64 n) parents = Some parent ->
  Number parent = Some pn ->
  bigUint64 pn = 0 ->
  HeaderHash E parent = ParentHash h ->
  Time parent <= Time h ->
  decodeHeaderExtra E h = Success hx ->
  let r := verifyCascadingFields E h parents w in
  (forall t, epochContinuous hx hx t = true) /\
  r = match newSnapshot E (db w) with
      | Failure e => (Err e, logCall w CallNewSnapshot)
      | Success snap =>
          replayAndSeal E (senateConfig E) snap h parent hx
            (logCall w CallNewSnapshot)
      end /\
  (exists l, calls (snd r) = calls w ++ CallNewSnapshot :: l /\
             existsb isLoad l = false).
Proof.
  intros Hn H1 Hp Hpn H0 Hh Ht Hx. cbv zeta.
  assert (Hnz : bigUint64 n <> 0) by (rewrite H1; discriminate).
  assert (Hg : bigInt64 pn = 0).
  { unfold bigInt64. unfold bigUint64 in H0. rewrite H0.
    destruct (pn <? 0); reflexivity. }
  assert (Heq : verifyCascadingFields E h parents w =
                match newSnapshot E (db w) with
                | Failure e => (Err e, logCall w CallNewSnapshot)
                | Success snap =>
                    replayAndSeal E (senateConfig E) snap h parent hx
                      (logCall w CallNewSnapshot)
                end).
  { rewrite (verifyCascadingFields_unfold h parent parents n pn w Hn Hnz Hp Hpn).
    rewrite H0, H1, Hh, Hx, Hg, !Z.eqb_refl. simpl.
    destruct (Z.gtb_spec (Time parent) (Time h)); [lia | reflexivity]. }
  split; [intros t; apply epochContinuous_refl |].
  split; [exact Heq |].
  rewrite Heq.
  destruct (newSnapshot E (db w)) as [snap | e].
  - destruct (replayAndSeal_calls (senateConfig E) snap h parent hx
                (logCall w CallNewSnapshot)) as [[(Hc & _) | (Hc & _)] _];
      rewrite Hc; unfold logCall; simpl.
    + exists []. split; reflexivity.
    + exists [CallCommit (HeaderExtra.Root hx)].
      rewrite <- app_assoc. split; reflexivity.
  - exists []. split; reflexivity.
Qed.

(** *** Panics of the verifier *)

Lemma verifyCascadingFields_panics (h : Header) (parents : list Header)
      (w : World_t) (p : PanicValue) :
  fst (verifyCascadingFields E h parents w) = Panic p ->
  sealOrErrorPanic p = false.
Proof.
  destruct (Number h) as [n|] eqn:Hn;
    [| unfold verifyCascadingFields; rewrite Hn; step;
       intros [= <-]; reflexivity].
  destruct (Z.eq_dec (bigUint64 n) 0) as [Hz | Hnz].
  { unfold verifyCascadingFields. rewrite Hn. step. rewrite Hz. simpl.
    discriminate. }
  destruct (resolveParent E h (bigUint64 n) parents) as [parent|] eqn:Hp;
    [| rewrite (verifyCascadingFields_no_parent h parents n w Hn Hnz Hp);
       discriminate].
  destruct (Number parent) as [pn|] eqn:Hpn;
    [| rewrite (verifyCascadingFields_nil_number h parent parents n w Hn Hnz Hp Hpn);
       intros [= <-]; reflexivity].
  rewrite (verifyCascadingFields_unfold h parent parents n pn w Hn Hnz Hp Hpn).
  destruct (negb (bigUint64 pn =? u64 (bigUint64 n - 1))
            || negb (HeaderHash E parent =? ParentHash h)); [discriminate |].
  destruct (Time parent >? Time h); [discriminate |].
  destruct (decodeHeaderExtra E h) as [hx | e]; [| discriminate].
  destruct (bigInt64 pn =? 0).
  - destruct (newSnapshot E (db w)) as [snap | e]; [| discriminate].
    apply replayAndSeal_calls.
  - destruct (decodeHeaderExtra E parent) as [phx | e]; [| discriminate].
    destruct (chainConfigByHash E (db w) _) as [cfg | e]; [| discriminate].
    cbv zeta.
    destruct (loadSnapshot E (db w) _) as [snap | e]; [| discriminate].
    destruct (epochContinuous hx phx (Time h)); [| discriminate].
    apply replayAndSeal_calls.
Qed.

Lemma verifyHeader_panics (now : Z) (h : Header) (parents : list Header)
      (w : World_t) (p : PanicValue) :
  fst (verifyHeader E now h parents w) = Panic p ->
  sealOrErrorPanic p = false.
Proof.
  unfold verifyHeader.
  destruct (Number h); [| discriminate].
  destruct (Time h >? u64 now); [discriminate |].
  destruct (len (Extra h) <? extraVanity); [discriminate |].
  destruct (len (Extra h) <? extraVanity + extraSeal); [discriminate |].
  destruct (negb (MixDigest h =? 0)); [discriminate |].
  destruct (negb (UncleHash h =? uncleHash E)); [discriminate |].
  apply verifyCascadingFields_panics.
Qed.

(** *** The stateless checks *)

(** C9. [verifyHeader] makes its stateless checks first, in this order,
    and each rejects without reading the parents, the chain or the store:
    no number, unknown block; a time after the clock, future block; an
    extra of less than 32 bytes, missing vanity; of less than 32 + 65
    bytes, missing signature; a mix digest other than zero, invalid mix
    digest; an uncle hash other than that of no uncles, invalid uncle
    hash.  A header that passes them all goes on to the cascading checks. *)
Theorem verifyHeader_stateless_checks
        (now : Z) (h : Header) (parents : list Header) (w : World_t) :
  let r := verifyHeader E now h parents w in
  (Number h = None -> r = (Err errUnknownBlock, w)) /\
  (Number h <> None -> Time h > u64 now -> r = (Err ErrFutureBlock, w)) /\
  (Number h <> None -> Time h <= u64 now -> len (Extra h) < 32 ->
   r = (Err errMissingVanity, w)) /\
  (Number h <> None -> Time h <= u64 now ->
   32 <= len (Extra h) < 32 + 65 ->
   r = (Err errMissingSignature, w)) /\
  (Number h <> None -> Time h <= u64 now -> 32 + 65 <= len (Extra h) ->
   MixDigest h <> 0 ->
   r = (Err errInvalidMixDigest, w)) /\
  (Number h <> None -> Time h <= u64 now -> 32 + 65 <= len (Extra h) ->
   MixDigest h = 0 -> UncleHash h <> uncleHash E ->
   r = (Err errInvalidUncleHash, w)) /\
  (Number h <> None -> Time h <= u64 now -> 32 + 65 <= len (Extra h) ->
   MixDigest h = 0 -> UncleHash h = uncleHash E ->
   r = verifyCascadingFields E h parents w) /\
  (Number h = None \/ Time h > u64 now \/ len (Extra h) < 32 + 65 \/
   MixDigest h <> 0 \/ UncleHash h <> uncleHash E ->
   exists e, r = (Err e, w) /\
             In e [errUnknownBlock; ErrFutureBlock; errMissingVanity;
                   errMissingSignature; errInvalidMixDigest;
                   errInvalidUncleHash]).
Proof.
  cbv zeta. unfold verifyHeader, extraVanity, extraSeal, throw.
  change (32 + 65) with 97.
  destruct (Number h) as [n|].
  2: { repeat split; try congruence. intros _. eexists. split; [reflexivity |].
       simpl. auto. }
  destruct (Z.gtb_spec (Time h) (u64 now)) as [Ht | Ht].
  { repeat split; try congruence; try lia. intros _. eexists.
    split; [reflexivity |]. simpl. auto. }
  destruct (Z.ltb_spec (len (Extra h)) 32) as [Hv | Hv].
  { repeat split; try congruence; try lia. intros _. eexists.
    split; [reflexivity |]. simpl. auto. }
  destruct (Z.ltb_spec (len (Extra h)) 97) as [Hs | Hs].
  { repeat split; try congruence; try lia. intros _. eexists.
    split; [reflexivity |]. simpl. auto 10. }
  destruct (Z.eqb_spec (MixDigest h) 0) as [Hm | Hm]; simpl.
  2: { repeat split; try congruence; try lia. intros _. eexists.
       split; [reflexivity |]. simpl. auto 10. }
  destruct (Z.eqb_spec (UncleHash h) (uncleHash E)) as [Hu | Hu]; simpl.
  2: { repeat split; try congruence; try lia. intros _. eexists.
       split; [reflexivity |]. simpl. auto 10. }
  repeat split; try congruence; try lia.
  intros [H | [H | [H | [H | H]]]]; try congruence; lia.
Qed.

End VerifierFacts.

(** ** The preparer *)

Section PreparerFacts.

Context {DB Snapshot SigCache Logs StateDB Txs : Type}.
Variable E : Deps DB Snapshot SigCache Logs StateDB Txs.

Local Abbreviation Extra_t := (HeaderExtra.t Logs).

Lemma bigUint64_small (n : Z) : 0 <= n < 2 ^ 64 -> bigUint64 n = n.
Proof.
  intros H. unfold bigUint64. rewrite Z.abs_eq by lia.
  apply Z.mod_small. exact H.
Qed.

Lemma u64_small (n : Z) : 0 <= n < 2 ^ 64 -> u64 n = n.
Proof. intros H. apply Z.mod_small. exact H. Qed.

Lemma i64_small (n : Z) : - 2 ^ 63 <= n < 2 ^ 63 -> i64 n = n.
Proof.
  intros H. unfold i64. rewrite Z.mod_small; lia.
Qed.

(** In the range of the timestamps of a chain, the time of a new block is
    the later of the slot after its parent and the clock. *)
Lemma blockTime_max (cfg : params.SenateConfig) (parent : Header) (now : Z) :
  0 <= Time parent ->
  0 <= params.Period cfg ->
  Time parent + params.Period cfg < 2 ^ 63 ->
  0 <= now < 2 ^ 63 ->
  blockTime cfg parent now = Z.max (Time parent + params.Period cfg) now.
Proof.
  intros Ht Hp Hs Hnow. unfold blockTime.
  rewrite (u64_small (Time parent + params.Period cfg)) by lia.
  rewrite i64_small by lia. rewrite (u64_small now) by lia.
  destruct (Z.ltb_spec (Time parent + params.Period cfg) now); lia.
Qed.

(** The time that [prepareFields] leaves in the header. *)
Lemma prepareFields_time (d : DB) (now : Z) (header parent : Header)
      (number : Z) (cfg : params.SenateConfig) :
  (if number =? 1 then cfg = senateConfig E
   else exists phx,
       decodeHeaderExtra E parent = Success phx /\
       chainConfigByHash E d (ConfigHash (HeaderExtra.Root phx)) = Success cfg) ->
  Time (fst (prepareFields E d now header parent number)) =
  blockTime cfg parent now.
Proof.
  unfold prepareFields. destruct (number =? 1).
  - intros ->. reflexivity.
  - intros (phx & -> & ->).
    destruct (params.Epoch cfg =? 0); [reflexivity |].
    destruct ((_ >=? 1) && (_ >? 0)); reflexivity.
Qed.

Lemma Prepare_time (d : DB) (now : Z) (header parent : Header) (n : Z) :
  Number header = Some n ->
  GetHeader E (ParentHash header) (u64 (bigUint64 n - 1)) = Some parent ->
  Time (fst (Prepare E d now header)) =
  Time (fst (prepareFields E d now
               (setDifficulty (setMixDigest header 0) CalcDifficulty)
               parent (bigUint64 n))).
Proof.
  intros Hn Hp. unfold Prepare. rewrite Hn. simpl ParentHash. rewrite Hp.
  destruct (prepareFields E d now _ parent (bigUint64 n)) as [h' [hx | e | p]];
    simpl; try reflexivity.
  destruct (Encode E hx); reflexivity.
Qed.

(** C6. For a header at height 1 or above whose parent is found (and,
    above height 1, whose parent's extra decodes and names a known
    configuration), [Prepare] leaves in the header the time of the parent
    plus the period, or the clock when that sum is in the past: the
    maximum of the two.  Times are within the range of [int64]. *)
Theorem Prepare_sets_time_to_max
        (d : DB) (now : Z) (header parent : Header) (n : Z)
        (cfg : params.SenateConfig) :
  Number header = Some n ->
  1 <= n < 2 ^ 64 ->
  GetHeader E (ParentHash header) (n - 1) = Some parent ->
  (if n =? 1 then cfg = senateConfig E
   else exists phx,
       decodeHeaderExtra E parent = Success phx /\
       chainConfigByHash E d (ConfigHash (HeaderExtra.Root phx)) = Success cfg) ->
  0 <= Time parent ->
  0 <= params.Period cfg ->
  Time parent + params.Period cfg < 2 ^ 63 ->
  0 <= now < 2 ^ 63 ->
  Time (fst (Prepare E d now header)) =
  Z.max (Time parent + params.Period cfg) now.
Proof.
  intros Hn Hrange Hp Hcfg Ht Hper Hsum Hnow.
  rewrite <- (blockTime_max cfg parent now Ht Hper Hsum Hnow).
  rewrite (Prepare_time d now header parent n Hn).
  - apply prepareFields_time. rewrite bigUint64_small by lia. exact Hcfg.
  - rewrite bigUint64_small by lia. rewrite u64_small by lia. exact Hp.
Qed.


Lemma Prepare_panics (d : DB) (now : Z) (header : Header) (p : PanicValue) :
  snd (Prepare E d now header) = Panic p -> sealOrErrorPanic p = false.
Proof.
  unfold Prepare. destruct (Number header) as [n|]; simpl;
    [| intros [= <-]; reflexivity].
  destruct (GetHeader E _ _) as [parent|]; simpl; [| discriminate].
  unfold prepareFields. destruct (bigUint64 n =? 1); simpl.
  - destruct (Encode E _); discriminate.
  - destruct (decodeHeaderExtra E parent) as [phx | e]; simpl; [| discriminate].
    destruct (chainConfigByHash E d _) as [cfg | e]; simpl; [| discriminate].
    destruct (params.Epoch cfg =? 0); simpl; [intros [= <-]; reflexivity |].
    destruct ((_ >=? 1) && (_ >? 0)); simpl; destruct (Encode E _); discriminate.
Qed.

End PreparerFacts.

(** ** The finalizer and the panics of the engine *)

Section FinalizerFacts.

Context {DB Snapshot SigCache Logs StateDB Txs : Type}.
Variable E : Deps DB Snapshot SigCache Logs StateDB Txs.



End FinalizerFacts.

(** ** The engine on the small chain *)

(** Block 8 declaring the root of its parent: the replay gives another root,
    the error is the invalid trie root and nothing is committed. *)
Lemma verifyCascadingFields_checks_replayed_root_witness :
  Number Scenario.block8_wrong_root = Some 8 /\
  bigUint64 8 <> 0 /\
  fst (verifyCascadingFields Scenario.deps Scenario.block8_wrong_root []
         Scenario.world) = Err errInvalidTrieRoot /\
  filter isCommit
    (calls (snd (verifyCascadingFields Scenario.deps Scenario.block8_wrong_root []
                   Scenario.world))) = [].
Proof.
  split; [reflexivity |]. split; [vm_compute; discriminate |].
  destruct (verifyCascadingFields_checks_replayed_root Scenario.deps
              Scenario.block8_wrong_root [] 8 Scenario.world eq_refl
              ltac:(vm_compute; discriminate)) as [_ H].
  destruct (H Scenario.parent7 7
              (HeaderExtra.make Scenario.root7 5 1000 tt)
              Scenario.root7 Scenario.root8 Scenario.root8
              eq_refl eq_refl eq_refl eq_refl eq_refl eq_refl
              ltac:(vm_compute; discriminate)) as (_ & _ & Hc & He).
  split; [| exact Hc].
  apply He.
  - reflexivity.
  - reflexivity.
  - vm_compute. discriminate.
  - intros _. exists (HeaderExtra.make Scenario.root7 5 1000 tt), Scenario.config.
    repeat split.
Defined.



(** One slot later the elapsed time, 33, is past the epoch and no multiple
    of it: the epoch advances. *)
Example epoch_advances_at_1033 :
  let r := Prepare Scenario.deps [Scenario.root7] 1033 Scenario.blank8 in
  Time (fst r) = 1033 /\
  Scenario.decode (fst r) = Success (HeaderExtra.make Scenario.root7 6 1033 tt).
Proof. vm_compute. split; reflexivity. Qed.

(** C3, as stated, fails at height 1: the genesis block declares the pair
    (0, 0), block 1 at time 1000 declares (9, 77), which is neither (0, 0)
    nor (1, 1000), and block 1 is accepted. *)
Lemma height_one_epoch_pair_counterexample :
  Number Scenario.block1 = Some 1 /\
  resolveParent Scenario.deps Scenario.block1 1 [] = Some Scenario.genesis /\
  Scenario.decode Scenario.genesis = Success (HeaderExtra.make zeroRoot 0 0 tt) /\
  Scenario.decode Scenario.block1 =
    Success (HeaderExtra.make Scenario.root1 9 77 tt) /\
  Time Scenario.block1 = 1000 /\
  (9, 77) <> (0, 0) /\
  (9, 77) <> (u64 (0 + 1), 1000) /\
  fst (verifyCascadingFields Scenario.deps Scenario.block1 [] Scenario.world) =
    Ok tt /\
  fst (verifyCascadingFields Scenario.deps Scenario.block1 [] Scenario.world) <>
    Err ErrInvalidTimestamp.
Proof.
  repeat split; try (vm_compute; reflexivity); vm_compute; discriminate.
Qed.

(** Block 8 is accepted, and continues the epoch of block 7. *)
Lemma epoch_continuity_above_height_one_witness :
  fst (verifyCascadingFields Scenario.deps Scenario.block8 [] Scenario.world) =
    Ok tt /\
  ((5 = 5 /\ 1000 = 1000) \/ (5 = u64 (5 + 1) /\ 1000 = Time Scenario.block8)).
Proof.
  split; [vm_compute; reflexivity |].
  apply (epoch_continuity_above_height_one Scenario.deps Scenario.block8
           Scenario.parent7 [] 8 7
           (HeaderExtra.make Scenario.root8 5 1000 tt)
           (HeaderExtra.make Scenario.root7 5 1000 tt) Scenario.world
           eq_refl ltac:(vm_compute; discriminate) eq_refl eq_refl
           ltac:(vm_compute; discriminate) eq_refl eq_refl).
  vm_compute. reflexivity.
Defined.

(** C4 on the code: a block with the very time of its parent passes the
    check of the timestamp, and here every other check. *)
Theorem same_time_as_parent_is_accepted :
  resolveParent Scenario.deps Scenario.block8_same_time 8 [] =
    Some Scenario.parent7 /\
  Time Scenario.block8_same_time = Time Scenario.parent7 /\
  fst (verifyHeader Scenario.deps 2000 Scenario.block8_same_time []
         Scenario.world) = Ok tt.
Proof. vm_compute. repeat split. Qed.

(** Block 8 prepared before and after its slot. *)
Lemma Prepare_sets_time_to_max_witness :
  Time (fst (Prepare Scenario.deps [Scenario.root7] 1028 Scenario.blank8)) =
    Z.max (1027 + 3) 1028 /\
  Time (fst (Prepare Scenario.deps [Scenario.root7] 2000 Scenario.blank8)) =
    Z.max (1027 + 3) 2000.
Proof.
  split.
  - apply (Prepare_sets_time_to_max Scenario.deps [Scenario.root7] 1028
             Scenario.blank8 Scenario.parent7 8 Scenario.config eq_refl);
      first [ reflexivity
            | exists (HeaderExtra.make Scenario.root7 5 1000 tt); split; reflexivity
            | simpl; lia ].
  - apply (Prepare_sets_time_to_max Scenario.deps [Scenario.root7] 2000
             Scenario.blank8 Scenario.parent7 8 Scenario.config eq_refl);
      first [ reflexivity
            | exists (HeaderExtra.make Scenario.root7 5 1000 tt); split; reflexivity
            | simpl; lia ].
Defined.


(** Above height 1 a snapshot that cannot be loaded does not stop
    [Finalize]: the error is assigned to a variable that is not read again. *)
Example Finalize_goes_on_without_the_snapshot :
  Scenario.load [] Scenario.root7 =
    Failure (errCollaborator "snapshot missing") /\
  isPanic (Finalize Scenario.deps [] Scenario.block8 0 []) = false.
Proof. vm_compute. split; reflexivity. Qed.

(** The verifier returns the same failure as an error. *)
Example verifyHeader_returns_undecodable_extra :
  fst (verifyHeader Scenario.deps 2000 Scenario.block8_malformed []
         Scenario.world) = Err (errCollaborator "malformed extra").
Proof. vm_compute. reflexivity. Qed.

(** A block from the future, and one with too short an extra. *)
Lemma verifyHeader_stateless_checks_witness :
  verifyHeader Scenario.deps 1000 Scenario.block8 [] Scenario.world =
    (Err ErrFutureBlock, Scenario.world) /\
  verifyHeader Scenario.deps 2000 Scenario.blank8 [] Scenario.world =
    (Err errMissingVanity, Scenario.world).
Proof.
  split.
  - apply (verifyHeader_stateless_checks Scenario.deps 1000 Scenario.block8 []
             Scenario.world); [discriminate | vm_compute; reflexivity].
  - apply (verifyHeader_stateless_checks Scenario.deps 2000 Scenario.blank8 []
             Scenario.world);
      [discriminate | vm_compute; discriminate | vm_compute; reflexivity].
Defined.

(** Block 1 on the genesis block: a fresh snapshot, then the commit. *)
Lemma height_one_fresh_snapshot_no_epoch_check_witness :
  epochContinuous (HeaderExtra.make Scenario.root1 9 77 tt)
    (HeaderExtra.make Scenario.root1 9 77 tt) (Time Scenario.block1) = true /\
  exists l,
    calls (snd (verifyCascadingFields Scenario.deps Scenario.block1 []
                  Scenario.world)) = calls Scenario.world ++ CallNewSnapshot :: l /\
    existsb isLoad l = false.
Proof.
  destruct (height_one_fresh_snapshot_no_epoch_check Scenario.deps
              Scenario.block1 Scenario.genesis [] 1 0
              (HeaderExtra.make Scenario.root1 9 77 tt) Scenario.world
              eq_refl eq_refl eq_refl eq_refl eq_refl eq_refl
              ltac:(vm_compute; discriminate) eq_refl) as (Hc & _ & Hl).
  split; [apply Hc | exact Hl].
Defined.

(** * More properties of the verifier *)

Section VerifierMore.

Context {DB Snapshot SigCache Logs StateDB Txs : Type}.
Variable E : Deps DB Snapshot SigCache Logs StateDB Txs.

Local Abbreviation World_t := (World DB SigCache).
Local Abbreviation Extra_t := (HeaderExtra.t Logs).

Ltac step :=
  unfold bind, try, ret, throw, panic, liftR, getDB, record, deref in *;
  simpl in *.

(** X1. A header above the genesis block whose parent is not found, or
    whose parent has another number than the one before, or another hash
    than the one the header names, is an unknown ancestor; nothing else is
    read or written. *)
Theorem unknown_ancestor_is_rejected
        (h : Header) (parents : list Header) (n : Z) (w : World_t) :
  Number h = Some n ->
  bigUint64 n <> 0 ->
  (resolveParent E h (bigUint64 n) parents = None \/
   exists parent pn,
     resolveParent E h (bigUint64 n) parents = Some parent /\
     Number parent = Some pn /\
     (bigUint64 pn <> u64 (bigUint64 n - 1) \/
      HeaderHash E parent <> ParentHash h)) ->
  verifyCascadingFields E h parents w = (Err ErrUnknownAncestor, w).
Proof.
  intros Hn Hnz [Hp | (parent & pn & Hp & Hpn & Hbad)].
  - apply (verifyCascadingFields_no_parent E h parents n w Hn Hnz Hp).
  - rewrite (verifyCascadingFields_unfold E h parent parents n pn w Hn Hnz Hp Hpn).
    destruct (Z.eqb_spec (bigUint64 pn) (u64 (bigUint64 n - 1))) as [H1 | H1];
      [| reflexivity].
    destruct (Z.eqb_spec (HeaderHash E parent) (ParentHash h)) as [H2 | H2];
      [| reflexivity].
    destruct Hbad; contradiction.
Qed.

Lemma bigUint64_multiple (n : Z) : n mod 2 ^ 64 = 0 -> bigUint64 n = 0.
Proof.
  intros H. unfold bigUint64.
  apply Z.mod_divide in H; [| lia]. apply Z.mod_divide; [lia |].
  apply Z.divide_abs_r. exact H.
Qed.

(** X2. The number of a header is read through [Uint64]: a header that
    passes the stateless checks and whose number is a multiple of 2^64, 0
    or not, is accepted as the genesis block is, with no look at a parent,
    a snapshot or a seal. *)
Theorem number_zero_modulo_2_64_is_accepted
        (now : Z) (h : Header) (parents : list Header) (n : Z) (w : World_t) :
  Number h = Some n ->
  n mod 2 ^ 64 = 0 ->
  Time h <= u64 now ->
  32 + 65 <= len (Extra h) ->
  MixDigest h = 0 ->
  UncleHash h = uncleHash E ->
  verifyHeader E now h parents w = (Ok tt, w).
Proof.
  intros Hn Hmod Ht Hlen Hmix Hunc.
  unfold verifyHeader, extraVanity, extraSeal. rewrite Hn.
  destruct (Z.gtb_spec (Time h) (u64 now)); [lia |].
  destruct (Z.ltb_spec (len (Extra h)) 32); [lia |].
  destruct (Z.ltb_spec (len (Extra h)) (32 + 65)); [lia |].
  rewrite Hmix, Hunc, !Z.eqb_refl. simpl.
  unfold verifyCascadingFields. rewrite Hn. step.
  rewrite (bigUint64_multiple n Hmod). reflexivity.
Qed.

Lemma replayAndSeal_accepts_commit (cfg : params.SenateConfig) (snap : Snapshot)
      (h parent : Header) (hx : Extra_t) (w w' : World_t) :
  replayAndSeal E cfg snap h parent hx w = (Ok tt, w') ->
  exists snap',
    snapApply E snap h hx = Success snap' /\
    snapRoot E snap' = Success (HeaderExtra.Root hx) /\
    calls w' = calls w ++ [CallCommit (HeaderExtra.Root hx)] /\
    snapCommit E snap' (HeaderExtra.Root hx) (db w) = (None, db w').
Proof.
  unfold replayAndSeal. step.
  destruct (snapApply E snap h hx) as [snap' | e] eqn:Ha; simpl; [| discriminate].
  destruct (snapRoot E snap') as [root | e] eqn:Hr; simpl; [| discriminate].
  destruct (Root_eqb root (HeaderExtra.Root hx)) eqn:Hroot; simpl; [| discriminate].
  apply Root_eqb_eq in Hroot. subst root.
  pose proof (verifySeal_frame E cfg h parent w) as [Hd Hc].
  destruct (verifySeal E cfg h parent w) as [[[] | e | p] w1]; simpl in *;
    try discriminate.
  unfold logCall; simpl. rewrite Hd.
  destruct (snapCommit E snap' (HeaderExtra.Root hx) (db w)) as [[e|] d] eqn:Hcm;
    simpl; [discriminate |].
  intros [= <-]. exists snap'. simpl. rewrite Hc. repeat split; auto.
Qed.

(** X3. A header above the genesis block that the cascading checks accept
    has been committed: the log gains exactly two calls, the one that got
    the snapshot of the parent (fresh, or loaded at the root the parent
    declares) and the commit under the root the header declares, and the
    store is the one that this commit left. *)
Theorem accepted_header_is_committed_once
        (h : Header) (parents : list Header) (n : Z) (w w' : World_t) :
  Number h = Some n ->
  bigUint64 n <> 0 ->
  verifyCascadingFields E h parents w = (Ok tt, w') ->
  exists parent pn hx snap0 snap1 c,
    resolveParent E h (bigUint64 n) parents = Some parent /\
    Number parent = Some pn /\
    decodeHeaderExtra E h = Success hx /\
    snapshotOfParent E (db w) parent pn = Success snap0 /\
    snapApply E snap0 h hx = Success snap1 /\
    (bigInt64 pn = 0 /\ c = CallNewSnapshot \/
     bigInt64 pn <> 0 /\
     exists phx, decodeHeaderExtra E parent = Success phx /\
                 c = CallLoadSnapshot (HeaderExtra.Root phx)) /\
    calls w' = calls w ++ [c; CallCommit (HeaderExtra.Root hx)] /\
    snapCommit E snap1 (HeaderExtra.Root hx) (db w) = (None, db w').
Proof.
  intros Hn Hnz Hok.
  destruct (resolveParent E h (bigUint64 n) parents) as [parent|] eqn:Hp;
    [| rewrite (verifyCascadingFields_no_parent E h parents n w Hn Hnz Hp) in Hok;
       discriminate].
  destruct (Number parent) as [pn|] eqn:Hpn;
    [| rewrite (verifyCascadingFields_nil_number E h parent parents n w Hn Hnz Hp Hpn)
         in Hok; discriminate].
  rewrite (verifyCascadingFields_unfold E h parent parents n pn w Hn Hnz Hp Hpn) in Hok.
  destruct (negb (bigUint64 pn =? u64 (bigUint64 n - 1))
            || negb (HeaderHash E parent =? ParentHash h)); [discriminate |].
  destruct (Time parent >? Time h); [discriminate |].
  destruct (decodeHeaderExtra E h) as [hx | e] eqn:Hx; [| discriminate].
  exists parent, pn, hx. unfold snapshotOfParent.
  destruct (Z.eqb_spec (bigInt64 pn) 0) as [Hg | Hg].
  - destruct (newSnapshot E (db w)) as [snap | e] eqn:Hs; [| discriminate].
    apply replayAndSeal_accepts_commit in Hok.
    destruct Hok as (snap1 & Ha & _ & Hc & Hd).
    exists snap, snap1, CallNewSnapshot. simpl in Hc, Hd.
    rewrite <- app_assoc in Hc. repeat split; auto.
  - destruct (decodeHeaderExtra E parent) as [phx | e] eqn:Hpx; [| discriminate].
    destruct (chainConfigByHash E (db w) _) as [cfg | e]; [| discriminate].
    cbv zeta in Hok.
    destruct (loadSnapshot E (db w) _) as [snap | e] eqn:Hs; [| discriminate].
    destruct (epochContinuous hx phx (Time h)); [| discriminate].
    apply replayAndSeal_accepts_commit in Hok.
    destruct Hok as (snap1 & Ha & _ & Hc & Hd).
    exists snap, snap1, (CallLoadSnapshot (HeaderExtra.Root phx)).
    simpl in Hc, Hd. rewrite <- app_assoc in Hc.
    repeat split; auto. right. split; [exact Hg |]. exists phx. split; reflexivity.
Qed.

(** X4. The store is written by the last step alone: when the cascading
    checks end with anything but success or the failure to write the
    snapshot (an earlier error, a panic), the store is as it was and no
    commit was asked for. *)
Theorem rejected_header_leaves_the_store
        (h : Header) (parents : list Header) (w : World_t) :
  let r := verifyCascadingFields E h parents w in
  fst r <> Ok tt ->
  fst r <> Err errSnapshotWrite ->
  db (snd r) = db w /\
  filter isCommit (calls (snd r)) = filter isCommit (calls w).
Proof.
  cbv zeta.
  destruct (Number h) as [n|] eqn:Hn;
    [| unfold verifyCascadingFields; rewrite Hn; step; intros; split; reflexivity].
  destruct (Z.eq_dec (bigUint64 n) 0) as [Hz | Hnz].
  { unfold verifyCascadingFields. rewrite Hn. step. rewrite Hz. simpl.
    intros; split; reflexivity. }
  destruct (resolveParent E h (bigUint64 n) parents) as [parent|] eqn:Hp;
    [| rewrite (verifyCascadingFields_no_parent E h parents n w Hn Hnz Hp);
       intros; split; reflexivity].
  destruct (Number parent) as [pn|] eqn:Hpn;
    [| rewrite (verifyCascadingFields_nil_number E h parent parents n w Hn Hnz Hp Hpn);
       intros; split; reflexivity].
  rewrite (verifyCascadingFields_unfold E h parent parents n pn w Hn Hnz Hp Hpn).
  destruct (negb (bigUint64 pn =? u64 (bigUint64 n - 1))
            || negb (HeaderHash E parent =? ParentHash h));
    [intros; split; reflexivity |].
  destruct (Time parent >? Time h); [intros; split; reflexivity |].
  destruct (decodeHeaderExtra E h) as [hx | e]; [| intros; split; reflexivity].
  assert (Hreplay : forall cfg snap c,
             isCommit c = false ->
             let r := replayAndSeal E cfg snap h parent hx (logCall w c) in
             fst r <> Ok tt -> fst r <> Err errSnapshotWrite ->
             db (snd r) = db w /\
             filter isCommit (calls (snd r)) = filter isCommit (calls w)).
  { intros cfg snap c Hc. cbv zeta. intros H1 H2.
    destruct (replayAndSeal_calls E cfg snap h parent hx (logCall w c))
      as [[(Hcalls & Hdb & _) | (_ & [Hok | Hw])] _].
    - rewrite Hcalls, Hdb. split; [reflexivity | apply commits_logCall, Hc].
    - contradiction.
    - contradiction. }
  destruct (bigInt64 pn =? 0).
  - destruct (newSnapshot E (db w)) as [snap | e].
    + apply Hreplay. reflexivity.
    + intros _ _. split; [reflexivity | apply commits_logCall; reflexivity].
  - destruct (decodeHeaderExtra E parent) as [phx | e]; [| intros; split; reflexivity].
    destruct (chainConfigByHash E (db w) _) as [cfg | e];
      [| intros; split; reflexivity].
    cbv zeta.
    destruct (loadSnapshot E (db w) _) as [snap | e];
      [| intros _ _; split; [reflexivity | apply commits_logCall; reflexivity]].
    destruct (epochContinuous hx phx (Time h)).
    + apply Hreplay. reflexivity.
    + intros _ _. split; [reflexivity | apply commits_logCall; reflexivity].
Qed.

(** X5. Above the genesis block [verifySeal] accepts a header exactly when
    the signer recovered from it is in turn for its time after its parent,
    under the given configuration; a signer out of turn is unauthorized. *)
Theorem verifySeal_accepts_the_signer_in_turn
        (cfg : params.SenateConfig) (h parent : Header) (n : Z) (w : World_t) :
  Number h = Some n ->
  bigUint64 n <> 0 ->
  (fst (verifySeal E cfg h parent w) = Ok tt <->
   exists a, fst (ecrecover E h w) = Ok a /\
             inTurn E (db w) cfg parent (Time h) a = true) /\
  (forall a, fst (ecrecover E h w) = Ok a ->
             inTurn E (db w) cfg parent (Time h) a = false ->
             fst (verifySeal E cfg h parent w) = Err errUnauthorized).
Proof.
  intros Hn Hnz. unfold verifySeal. rewrite Hn. step.
  destruct (Z.eqb_spec (bigUint64 n) 0) as [Hz | _]; [contradiction |].
  pose proof (ecrecover_frame E h w) as [Hd _].
  destruct (ecrecover E h w) as [[a | e | p] w1]; simpl in *.
  - rewrite Hd.
    destruct (inTurn E (db w) cfg parent (Time h) a) eqn:Hturn; simpl.
    + split.
      * split; [intros _; exists a; split; [reflexivity | exact Hturn] |
                reflexivity].
      * intros b [= <-] Hb. congruence.
    + split.
      * split; [discriminate | intros (b & [= <-] & Hb); congruence].
      * reflexivity.
  - split; [split; [discriminate | intros (b & Hb & _); discriminate] |
            intros b Hb; discriminate].
  - split; [split; [discriminate | intros (b & Hb & _); discriminate] |
            intros b Hb; discriminate].
Qed.

(** X6. With a cache that gives back what was added to it, and keeps what
    it gave, the author of a header is stable: once [Author] has returned an
    address, it returns the same one when asked again. *)
Theorem Author_is_stable (h : Header) (w : World_t) (a : Address) :
  (forall c k v, fst (sigGet E (sigAdd E c k v) k) = Some v) ->
  (forall c k v, fst (sigGet E c k) = Some v ->
                 fst (sigGet E (snd (sigGet E c k)) k) = Some v) ->
  fst (Author E h w) = Ok a ->
  fst (Author E h (snd (Author E h w))) = Ok a.
Proof.
  intros Hadd Hkeep. unfold Author, ecrecover.
  destruct (sigGet E (signatures w) (HeaderHash E h)) as [[b|] c] eqn:Hget.
  - simpl. intros [= <-].
    specialize (Hkeep (signatures w) (HeaderHash E h) b).
    rewrite Hget in Hkeep. simpl in Hkeep. specialize (Hkeep eq_refl).
    destruct (sigGet E c (HeaderHash E h)) as [[b'|] c']; simpl in *;
      [congruence | discriminate].
  - destruct (len (Extra h) <? extraSeal); step; [discriminate |].
    destruct (SealHash E h) as [sh | e | p]; simpl; try discriminate.
    destruct (Ecrecover E sh _) as [[|x rest] | e]; simpl; try discriminate.
    intros [= <-].
    specialize (Hadd c (HeaderHash E h) (Keccak256 E rest mod 2 ^ 160)).
    simpl in Hadd.
    destruct (sigGet E (sigAdd E c (HeaderHash E h) _) (HeaderHash E h))
      as [[b'|] c']; simpl in *; [congruence | discriminate].
Qed.

End VerifierMore.

(** * More properties of the preparer and the finalizer *)

Lemma len_app {A : Type} (a b : list A) : len (a ++ b) = len a + len b.
Proof. unfold len. rewrite length_app. lia. Qed.

Lemma len_zeros (n : Z) : 0 <= n -> len (zeros n) = n.
Proof. intros H. unfold len, zeros. rewrite repeat_length. lia. Qed.

Lemma len_nonneg {A : Type} (a : list A) : 0 <= len a.
Proof. unfold len. lia. Qed.

Lemma len_firstn {A : Type} (n : Z) (a : list A) :
  0 <= n <= len a -> len (firstn (Z.to_nat n) a) = n.
Proof. unfold len. intros H. rewrite length_firstn. lia. Qed.

Lemma firstn_repeat_min {A : Type} (x : A) (k m : nat) :
  firstn k (repeat x m) = repeat x (Nat.min k m).
Proof.
  revert m. induction k as [|k IH]; intros [|m]; simpl; try reflexivity.
  now rewrite IH.
Qed.

Lemma firstn_exact {A : Type} (n : nat) (v r : list A) :
  List.length v = n -> firstn n (v ++ r) = v.
Proof.
  intros <-. rewrite firstn_app, Nat.sub_diag, firstn_all. simpl.
  apply app_nil_r.
Qed.

(** The vanity that the frame keeps: the first 32 bytes of the old extra,
    with zeros after them when they are fewer. *)
Lemma frame_vanity (extra : bytes) :
  firstn (Z.to_nat extraVanity)
    (if len extra <? extraVanity
     then extra ++ zeros (extraVanity - len extra) else extra) =
  firstn 32 (extra ++ zeros 32) /\
  len (firstn 32 (extra ++ zeros 32)) = 32.
Proof.
  unfold extraVanity. change (Z.to_nat 32) with 32%nat. split.
  - rewrite (firstn_app 32 extra (zeros 32)).
    destruct (Z.ltb_spec (len extra) 32) as [Hs | Hl]; unfold len in *.
    + rewrite firstn_app. f_equal. unfold zeros.
      rewrite !firstn_repeat_min. f_equal. lia.
    + replace (32 - List.length extra)%nat with 0%nat by lia.
      simpl. symmetry. apply app_nil_r.
  - unfold len. rewrite length_firstn, length_app. unfold zeros.
    rewrite repeat_length. lia.
Qed.

(** X7. The frame that [Prepare] gives the extra field: 32 bytes of vanity
    (the first 32 bytes of the old extra, padded with zeros when they are
    fewer), the payload, and 65 zero bytes for the seal, whatever the old
    extra was. *)
Theorem frameExtra_shape (extra data : bytes) :
  frameExtra extra data = firstn 32 (extra ++ zeros 32) ++ data ++ zeros 65 /\
  len (frameExtra extra data) = 32 + len data + 65 /\
  (32 <= len extra -> firstn 32 (frameExtra extra data) = firstn 32 extra) /\
  unsealed (frameExtra extra data) = firstn 32 (extra ++ zeros 32) ++ data.
Proof.
  destruct (frame_vanity extra) as [Hv Hl].
  assert (Heq : frameExtra extra data =
                firstn 32 (extra ++ zeros 32) ++ data ++ zeros 65).
  { unfold frameExtra. cbv zeta. rewrite Hv. reflexivity. }
  assert (Hlen : len (frameExtra extra data) = 32 + len data + 65).
  { rewrite Heq, !len_app, Hl, len_zeros by lia. lia. }
  split; [exact Heq |]. split; [exact Hlen |]. split.
  - intros H32. rewrite Heq.
    rewrite firstn_exact by (unfold len in Hl; lia).
    rewrite firstn_app. unfold len in H32.
    replace (32 - List.length extra)%nat with 0%nat by lia.
    rewrite firstn_O. apply app_nil_r.
  - unfold unsealed. rewrite Hlen. rewrite Heq. unfold extraSeal.
    rewrite app_assoc. apply firstn_exact.
    rewrite length_app. unfold len in *. lia.
Qed.

Section PreparerMore.

Context {DB Snapshot SigCache Logs StateDB Txs : Type}.
Variable E : Deps DB Snapshot SigCache Logs StateDB Txs.

Local Abbreviation Extra_t := (HeaderExtra.t Logs).

(** What a successful [Prepare] has done. *)
Lemma Prepare_ok_inv (d : DB) (now : Z) (h : Header) :
  snd (Prepare E d now h) = Ok tt ->
  exists n parent h1 hx data,
    Number h = Some n /\
    GetHeader E (ParentHash h) (u64 (bigUint64 n - 1)) = Some parent /\
    prepareFields E d now (setDifficulty (setMixDigest h 0) CalcDifficulty)
      parent (bigUint64 n) = (h1, Ok hx) /\
    Encode E hx = Success data /\
    fst (Prepare E d now h) = setExtra h1 (frameExtra (Extra h1) data).
Proof.
  unfold Prepare. destruct (Number h) as [n|]; [| discriminate].
  simpl ParentHash.
  destruct (GetHeader E (ParentHash h) _) as [parent|] eqn:Hp; [| discriminate].
  destruct (prepareFields E d now _ parent (bigUint64 n)) as [h1 [hx | e | p]] eqn:Hf;
    try discriminate.
  destruct (Encode E hx) as [data | e] eqn:He; [| discriminate].
  intros _. exists n, parent, h1, hx, data. repeat split; auto.
Qed.

(** [prepareFields] touches the time of the header and nothing else. *)
Lemma prepareFields_header (d : DB) (now : Z) (h parent : Header) (number : Z) :
  exists t, fst (prepareFields E d now h parent number) = setTime h t \/
            fst (prepareFields E d now h parent number) = h.
Proof.
  unfold prepareFields. destruct (number =? 1).
  - eexists. left. reflexivity.
  - destruct (decodeHeaderExtra E parent) as [phx | e];
      [| exists 0; right; reflexivity].
    destruct (chainConfigByHash E d _) as [cfg | e];
      [| exists 0; right; reflexivity].
    destruct (params.Epoch cfg =? 0); [eexists; left; reflexivity |].
    destruct ((_ >=? 1) && (_ >? 0)); eexists; left; reflexivity.
Qed.

(** X8. A header that [Prepare] has prepared is ready for the seal: its mix
    digest is zero and its difficulty 1, its extra has the 32 bytes of
    vanity of the old one (padded with zeros), a payload and 65 zero bytes,
    hence at least 97 bytes, so that serializing it for the seal cannot
    fail on the slice; its number, parent hash and coinbase are as they
    were. *)
Theorem prepared_header_is_ready_for_the_seal (d : DB) (now : Z) (h : Header) :
  snd (Prepare E d now h) = Ok tt ->
  let h' := fst (Prepare E d now h) in
  MixDigest h' = 0 /\
  Difficulty h' = Some 1 /\
  Number h' = Number h /\
  ParentHash h' = ParentHash h /\
  Coinbase h' = Coinbase h /\
  (exists data,
      Extra h' = firstn 32 (Extra h ++ zeros 32) ++ data ++ zeros 65) /\
  32 + 65 <= len (Extra h') /\
  SenateRLP E h' <> Panic panicSealSlice.
Proof.
  intros Hok. cbv zeta.
  destruct (Prepare_ok_inv d now h Hok)
    as (n & parent & h1 & hx & data & Hn & Hp & Hf & He & ->).
  destruct (prepareFields_header d now
              (setDifficulty (setMixDigest h 0) CalcDifficulty) parent (bigUint64 n))
    as [t Ht].
  rewrite Hf in Ht. simpl in Ht.
  destruct (frameExtra_shape (Extra h) data) as (Heq & Hlen & _ & _).
  assert (Hex : Extra h1 = Extra h) by (destruct Ht as [-> | ->]; reflexivity).
  assert (H97 : 32 + 65 <= len (frameExtra (Extra h) data))
    by (rewrite Hlen; pose proof (len_nonneg data); lia).
  rewrite Hex.
  destruct Ht as [-> | ->]; simpl; (repeat split; auto;
    [ exists data; exact Heq
    | intros Hpanic; unfold SenateRLP in Hpanic;
      apply encodeSigHeader_short in Hpanic; simpl in Hpanic; lia ]).
Qed.

(** X9. Above height 1 the payload that [Prepare] encodes passes the epoch
    check of the verifier against the parent, whatever the clock and the
    configuration: it keeps the root of the parent, and either keeps the
    pair (Epoch, EpochTime) of the parent or takes the next epoch with the
    time of the header. *)
Theorem prepared_payload_passes_the_epoch_check
        (d : DB) (now : Z) (h : Header) (n : Z) :
  Number h = Some n ->
  bigUint64 n <> 1 ->
  snd (Prepare E d now h) = Ok tt ->
  exists parent phx hx data,
    GetHeader E (ParentHash h) (u64 (bigUint64 n - 1)) = Some parent /\
    decodeHeaderExtra E parent = Success phx /\
    Encode E hx = Success data /\
    Extra (fst (Prepare E d now h)) = frameExtra (Extra h) data /\
    HeaderExtra.Root hx = HeaderExtra.Root phx /\
    epochContinuous hx phx (Time (fst (Prepare E d now h))) = true.
Proof.
  intros Hn H1 Hok.
  destruct (Prepare_ok_inv d now h Hok)
    as (n' & parent & h1 & hx & data & Hn' & Hp & Hf & He & Heq).
  rewrite Hn in Hn'. injection Hn' as <-.
  rewrite Heq. unfold prepareFields in Hf.
  destruct (Z.eqb_spec (bigUint64 n) 1) as [| _]; [contradiction |].
  destruct (decodeHeaderExtra E parent) as [phx | e] eqn:Hpx; [| discriminate].
  destruct (chainConfigByHash E d _) as [cfg | e]; [| discriminate].
  destruct (params.Epoch cfg =? 0); [discriminate |].
  exists parent, phx, hx, data.
  destruct ((_ >=? 1) && (_ >? 0)); injection Hf as <- <-; simpl;
    (repeat split; auto; apply epochContinuous_spec; simpl; auto).
Qed.

(** X10. At height 1 [Prepare] reads nothing of the extra of the genesis
    block: the payload it encodes has the zero root, epoch 1 and, as the
    start of the epoch, the time it gave the header, under the engine's own
    configuration. *)
Theorem Prepare_at_height_one (d : DB) (now : Z) (h parent : Header) (n : Z) :
  Number h = Some n ->
  bigUint64 n = 1 ->
  GetHeader E (ParentHash h) 0 = Some parent ->
  let t := blockTime (senateConfig E) parent now in
  let h1 := setTime (setDifficulty (setMixDigest h 0) CalcDifficulty) t in
  Prepare E d now h =
    match Encode E (HeaderExtra.make zeroRoot 1 t (zeroLogs E)) with
    | Failure err => (h1, Err err)
    | Success data => (setExtra h1 (frameExtra (Extra h) data), Ok tt)
    end.
Proof.
  intros Hn H1 Hp. cbv zeta. unfold Prepare. rewrite Hn, H1. simpl ParentHash.
  change (u64 (1 - 1)) with 0. rewrite Hp. unfold prepareFields. simpl.
  destruct (Encode E _); reflexivity.
Qed.

(** X11. Above height 1, a configuration whose epoch is 0 makes [Prepare]
    panic on the division, after it has set the time of the header. *)
Theorem Prepare_panics_on_a_zero_epoch
        (d : DB) (now : Z) (h parent : Header) (n : Z)
        (phx : Extra_t) (cfg : params.SenateConfig) :
  Number h = Some n ->
  bigUint64 n <> 1 ->
  GetHeader E (ParentHash h) (u64 (bigUint64 n - 1)) = Some parent ->
  decodeHeaderExtra E parent = Success phx ->
  chainConfigByHash E d (ConfigHash (HeaderExtra.Root phx)) = Success cfg ->
  params.Epoch cfg = 0 ->
  Prepare E d now h =
    (setTime (setDifficulty (setMixDigest h 0) CalcDifficulty)
       (blockTime cfg parent now),
     Panic panicDivideByZero).
Proof.
  intros Hn H1 Hp Hpx Hcfg H0. unfold Prepare. rewrite Hn. simpl ParentHash.
  rewrite Hp. unfold prepareFields.
  destruct (Z.eqb_spec (bigUint64 n) 1) as [| _]; [contradiction |].
  rewrite Hpx, Hcfg, H0. reflexivity.
Qed.

(** X12. [Finalize] returns only when the election raised no error and the
    extra rebuilt from the transactions equals the one the header carries;
    it then leaves the header as it was but for the state root and the
    uncle hash. *)
Theorem Finalize_returns_only_on_equal_extra
        (d : DB) (h h' : Header) (st st' : StateDB) (txs : Txs) :
  Finalize E d h st txs = Ok (h', st') ->
  exists hx cfg snap st1 snap1 temp1 st2 snap2 temp2,
    decodeHeaderExtra E h = Success hx /\
    processTransactions E cfg (accumulateRewards E cfg st h) h snap
      (HeaderExtra.make (HeaderExtra.Root hx) (HeaderExtra.Epoch hx)
         (HeaderExtra.EpochTime hx) (zeroLogs E)) txs = (st1, snap1, temp1) /\
    tryElect E cfg st1 h snap1 temp1 = (None, (st2, snap2, temp2)) /\
    Equal E temp2 hx = true /\
    h' = setUncleHash
           (setStateRoot h
              (fst (IntermediateRoot E st2 (IsEIP158 E (Number h)))))
           (CalcUncleHashNil E) /\
    st' = snd (IntermediateRoot E st2 (IsEIP158 E (Number h))).
Proof.
  unfold Finalize. destruct (Number h) as [n|]; [| discriminate].
  destruct (decodeHeaderExtra E h) as [hx | err]; [| discriminate].
  destruct (finalizeSnapshot E d _ _) as [[snap [err|]] | err | p];
    try discriminate.
  destruct (chainConfig E d _) as [cfg | err]; [| discriminate].
  destruct (processTransactions E cfg _ h snap _ txs) as [[st1 snap1] temp1] eqn:Hpt.
  destruct (tryElect E cfg st1 h snap1 temp1) as [err [[st2 snap2] temp2]] eqn:Hte.
  destruct err as [err|]; simpl; [discriminate |].
  destruct (Equal E temp2 hx) eqn:Heq; simpl; [| discriminate].
  destruct (IntermediateRoot E st2 _) as [root st3] eqn:Hir.
  intros [= <- <-].
  exists hx, cfg, snap, st1, snap1, temp1, st2, snap2, temp2.
  repeat split; auto; rewrite ?Hir; reflexivity.
Qed.

(** X13. When the election raises no error but the rebuilt extra differs
    from the one of the header, [Finalize] panics with a nil value. *)
Theorem Finalize_panics_with_nil_on_a_different_extra
        (d : DB) (h : Header) (st : StateDB) (txs : Txs) (n : Z)
        (hx : Extra_t) (snap : Snapshot) (cfg : params.SenateConfig)
        (st1 st2 : StateDB) (snap1 snap2 : Snapshot) (temp1 temp2 : Extra_t) :
  Number h = Some n ->
  decodeHeaderExtra E h = Success hx ->
  finalizeSnapshot E d (bigUint64 n)
    (GetHeader E (ParentHash h) (u64 (bigUint64 n - 1))) = Ok (snap, None) ->
  chainConfig E d (GetHeader E (ParentHash h) (u64 (bigUint64 n - 1))) =
    Success cfg ->
  processTransactions E cfg (accumulateRewards E cfg st h) h snap
    (HeaderExtra.make (HeaderExtra.Root hx) (HeaderExtra.Epoch hx)
       (HeaderExtra.EpochTime hx) (zeroLogs E)) txs = (st1, snap1, temp1) ->
  tryElect E cfg st1 h snap1 temp1 = (None, (st2, snap2, temp2)) ->
  Equal E temp2 hx = false ->
  Finalize E d h st txs = Panic (panicError None).
Proof.
  intros Hn Hx Hs Hc Hpt Hte Heq. unfold Finalize.
  rewrite Hn, Hx, Hs, Hc, Hpt, Hte, Heq. reflexivity.
Qed.

(** X14. Above height 1, [Finalize] goes on when the snapshot of the parent
    cannot be loaded: the error is assigned to a variable declared in the
    branch, the one tested after the branch is still nil, and the block is
    replayed on the snapshot that came with the error. *)
Theorem Finalize_goes_on_when_the_snapshot_is_missing
        (d : DB) (h parent : Header) (st : StateDB) (txs : Txs) (n : Z)
        (hx phx : Extra_t) (e : Error) (cfg : params.SenateConfig)
        (st1 st2 : StateDB) (snap1 snap2 : Snapshot) (temp1 temp2 : Extra_t) :
  Number h = Some n ->
  1 < bigUint64 n ->
  decodeHeaderExtra E h = Success hx ->
  GetHeader E (ParentHash h) (u64 (bigUint64 n - 1)) = Some parent ->
  decodeHeaderExtra E parent = Success phx ->
  loadSnapshot E d (HeaderExtra.Root phx) = Failure e ->
  chainConfig E d (Some parent) = Success cfg ->
  processTransactions E cfg (accumulateRewards E cfg st h) h (nilSnapshot E)
    (HeaderExtra.make (HeaderExtra.Root hx) (HeaderExtra.Epoch hx)
       (HeaderExtra.EpochTime hx) (zeroLogs E)) txs = (st1, snap1, temp1) ->
  tryElect E cfg st1 h snap1 temp1 = (None, (st2, snap2, temp2)) ->
  Equal E temp2 hx = true ->
  Finalize E d h st txs =
    Ok (setUncleHash
          (setStateRoot h (fst (IntermediateRoot E st2 (IsEIP158 E (Number h)))))
          (CalcUncleHashNil E),
        snd (IntermediateRoot E st2 (IsEIP158 E (Number h)))).
Proof.
  intros Hn Hgt Hx Hp Hpx Hl Hc Hpt Hte Heq. unfold Finalize, finalizeSnapshot.
  rewrite Hn, Hx, Hp. destruct (Z.leb_spec (bigUint64 n) 1); [lia |].
  rewrite Hpx, Hl, Hc, Hpt, Hte, Heq. simpl.
  destruct (IntermediateRoot E st2 _). reflexivity.
Qed.

End PreparerMore.

(** * Properties of the sealer *)

Lemma copyInto_length (dst src : bytes) :
  List.length (copyInto dst src) = List.length dst.
Proof.
  unfold copyInto. rewrite length_app, length_firstn, length_skipn. lia.
Qed.

Lemma copyInto_all (dst src : bytes) :
  List.length src = List.length dst -> copyInto dst src = src.
Proof.
  intros H. unfold copyInto. rewrite <- H, firstn_all, skipn_all2 by lia.
  apply app_nil_r.
Qed.

Section SealerFacts.

Context {DB Snapshot SigCache Logs StateDB Txs Receipts Block : Type}.
Variable E : Deps DB Snapshot SigCache Logs StateDB Txs.
Variable K : Minter DB Snapshot Logs StateDB Txs Receipts Block.

Local Abbreviation World_t := (World DB SigCache).

Ltac step :=
  unfold bind, try, ret, throw, panic, liftR, getDB, record, deref in *;
  simpl in *.

(** The bytes to sign depend on the extra through its unsealed part only. *)
Lemma encodeSigHeader_same (h1 h2 : Header) :
  65 <= len (Extra h1) ->
  65 <= len (Extra h2) ->
  sameButExtra h1 h2 ->
  unsealed (Extra h1) = unsealed (Extra h2) ->
  encodeSigHeader E h1 = encodeSigHeader E h2.
Proof.
  intros H1 H2 Hsame Hextra.
  destruct Hsame as (Ha & Hb & Hc & Hd & He & Hf & Hg & Hh & Hi & Hj & Hk & Hl & Hm & Hn).
  unfold unsealed, extraSeal in Hextra.
  unfold encodeSigHeader, SignatureLength.
  destruct (Z.ltb_spec (len (Extra h1)) 65); [lia |].
  destruct (Z.ltb_spec (len (Extra h2)) 65); [lia |].
  rewrite Ha, Hb, Hc, Hd, He, Hf, Hg, Hh, Hi, Hj, Hk, Hl, Hm, Hn, Hextra.
  reflexivity.
Qed.

(** What a successful [Seal] has done. *)
Lemma Seal_ok_inv (d : DB) (h h' : Header) :
  Seal E K d h = Ok h' ->
  exists n cfg rlp sigHash,
    Number h = Some n /\ bigUint64 n <> 0 /\
    32 + 65 <= len (Extra h) /\
    chainConfig E d (GetHeader E (ParentHash h) (u64 (bigUint64 n - 1))) =
      Success cfg /\
    inTurnOf E K d cfg (GetHeader E (ParentHash h) (u64 (bigUint64 n - 1)))
      (Time h) (Coinbase h) = Ok true /\
    SenateRLP E h = Ok rlp /\
    signFn K (signer K) rlp = Success sigHash /\
    h' = setExtra h
           (unsealed (Extra h)
            ++ copyInto (skipn (Z.to_nat (len (Extra h) - 65)) (Extra h)) sigHash).
Proof.
  unfold Seal, extraVanity, extraSeal.
  destruct (Number h) as [n|]; [| discriminate].
  destruct (Z.eqb_spec (bigUint64 n) 0) as [| Hnz]; [discriminate |].
  destruct (Z.ltb_spec (len (Extra h)) 32); [discriminate |].
  destruct (Z.ltb_spec (len (Extra h)) (32 + 65)); [discriminate |].
  destruct (chainConfig E d _) as [cfg | e] eqn:Hc; [| discriminate].
  destruct (inTurnOf E K d cfg _ (Time h) (Coinbase h)) as [[|] | e | p] eqn:Ht;
    try discriminate.
  destruct (SenateRLP E h) as [rlp | e | p] eqn:Hr; try discriminate.
  destruct (signFn K (signer K) rlp) as [sigHash | e] eqn:Hs; [| discriminate].
  intros [= <-]. exists n, cfg, rlp, sigHash. repeat split; auto.
Qed.

Lemma sealed_extra (extra sigHash : bytes) :
  65 <= len extra ->
  let sealed :=
    unsealed extra ++ copyInto (skipn (Z.to_nat (len extra - 65)) extra) sigHash in
  len sealed = len extra /\
  unsealed sealed = unsealed extra /\
  skipn (Z.to_nat (len sealed - 65)) sealed =
    copyInto (skipn (Z.to_nat (len extra - 65)) extra) sigHash.
Proof.
  intros H65. cbv zeta.
  assert (Hu : List.length (unsealed extra) = Z.to_nat (len extra - 65)).
  { unfold unsealed, extraSeal, len in *. rewrite length_firstn. lia. }
  assert (Hl : len (unsealed extra
                    ++ copyInto (skipn (Z.to_nat (len extra - 65)) extra) sigHash)
               = len extra).
  { unfold len in *. rewrite length_app, copyInto_length, length_skipn, Hu. lia. }
  split; [exact Hl |]. split.
  - unfold unsealed at 1. rewrite Hl. unfold extraSeal.
    apply firstn_exact. exact Hu.
  - rewrite Hl. rewrite skipn_app, Hu, Nat.sub_diag.
    rewrite skipn_all2 by lia. reflexivity.
Qed.

Lemma Seal_ok_extra (d : DB) (h h' : Header) :
  Seal E K d h = Ok h' ->
  exists rlp sigHash,
    SenateRLP E h = Ok rlp /\
    signFn K (signer K) rlp = Success sigHash /\
    32 + 65 <= len (Extra h) /\
    sameButExtra h h' /\
    len (Extra h') = len (Extra h) /\
    unsealed (Extra h') = unsealed (Extra h) /\
    encodeSigHeader E h' = encodeSigHeader E h /\
    skipn (Z.to_nat (len (Extra h') - 65)) (Extra h') =
      copyInto (skipn (Z.to_nat (len (Extra h) - 65)) (Extra h)) sigHash.
Proof.
  intros Hok.
  destruct (Seal_ok_inv d h h' Hok)
    as (n & cfg & rlp & sigHash & Hn & Hnz & Hlen & _ & _ & Hr & Hs & ->).
  destruct (sealed_extra (Extra h) sigHash ltac:(lia)) as (Hl & Hu & Hsk).
  exists rlp, sigHash. simpl.
  assert (Hsame : sameButExtra h (setExtra h
             (unsealed (Extra h)
              ++ copyInto (skipn (Z.to_nat (len (Extra h) - 65)) (Extra h)) sigHash)))
    by (unfold sameButExtra; simpl; repeat split).
  repeat split; auto; try apply Hsame.
  symmetry. apply encodeSigHeader_same; simpl; try lia; auto.
Qed.

(** X15. Sealing writes the last 65 bytes of the extra and nothing else:
    the sealed header has the fields, the length of extra and the unsealed
    part of extra of the header given, so the bytes to sign and the seal
    hash are the same before and after. *)
Theorem Seal_changes_the_seal_only (d : DB) (h h' : Header) :
  Seal E K d h = Ok h' ->
  sameButExtra h h' /\
  len (Extra h') = len (Extra h) /\
  unsealed (Extra h') = unsealed (Extra h) /\
  SenateRLP E h' = SenateRLP E h /\
  SealHash E h' = SealHash E h.
Proof.
  intros Hok.
  destruct (Seal_ok_extra d h h' Hok)
    as (rlp & sigHash & _ & _ & _ & Hsame & Hl & Hu & Henc & _).
  repeat split; auto; try apply Hsame.
  unfold SealHash. rewrite Henc. reflexivity.
Qed.

(** X16. With a signing function and a recovery that fit together (the
    signature has 65 bytes and the key recovered from it hashes to the
    signer), the author of a sealed header that the cache does not know yet
    is the signer of the engine. *)
Theorem Author_of_a_sealed_header_is_the_signer
        (d : DB) (h h' : Header) (w : World_t) :
  (forall rlp sigHash,
      signFn K (signer K) rlp = Success sigHash ->
      len sigHash = 65 /\
      exists x pub,
        Ecrecover E (Keccak256 E rlp) sigHash = Success (x :: pub) /\
        Keccak256 E pub mod 2 ^ 160 = signer K) ->
  Seal E K d h = Ok h' ->
  fst (sigGet E (signatures w) (HeaderHash E h')) = None ->
  fst (Author E h' w) = Ok (signer K).
Proof.
  intros Hfit Hok Hmiss.
  destruct (Seal_ok_extra d h h' Hok)
    as (rlp & sigHash & Hr & Hs & Hlen & _ & Hl & _ & Henc & Hsk).
  destruct (Hfit rlp sigHash Hs) as (H65 & x & pub & Hrec & Hkey).
  rewrite copyInto_all in Hsk
    by (rewrite length_skipn; unfold len in *; lia).
  unfold Author, ecrecover.
  destruct (sigGet E (signatures w) (HeaderHash E h')) as [[a|] c];
    [discriminate |].
  unfold extraSeal. destruct (Z.ltb_spec (len (Extra h')) 65); [lia |].
  step. unfold SealHash. rewrite Henc. unfold SenateRLP in Hr. rewrite Hr. simpl.
  rewrite Hsk, Hrec. simpl. rewrite Hkey. reflexivity.
Qed.

(** X17. [Seal] makes its checks in this order, each before the chain or
    the signer is asked: the genesis block, unknown block; an extra of less
    than 32 bytes, missing vanity; of less than 32 + 65 bytes, missing
    signature.  So it never serializes a header too short for the seal. *)
Theorem Seal_checks_the_frame_first (d : DB) (h : Header) (n : Z) :
  Number h = Some n ->
  (bigUint64 n = 0 -> Seal E K d h = Err errUnknownBlock) /\
  (bigUint64 n <> 0 -> len (Extra h) < 32 ->
   Seal E K d h = Err errMissingVanity) /\
  (bigUint64 n <> 0 -> 32 <= len (Extra h) < 32 + 65 ->
   Seal E K d h = Err errMissingSignature) /\
  (SenateRLP E h = Panic panicSealSlice ->
   exists e, Seal E K d h = Err e /\
             In e [errUnknownBlock; errMissingVanity; errMissingSignature]).
Proof.
  intros Hn. unfold Seal, extraVanity, extraSeal. rewrite Hn.
  destruct (Z.eqb_spec (bigUint64 n) 0) as [Hz | Hnz].
  { repeat split; try congruence. intros _. eexists. split; [reflexivity |].
    simpl. auto. }
  destruct (Z.ltb_spec (len (Extra h)) 32) as [Hv | Hv].
  { repeat split; try congruence; try lia. intros _. eexists.
    split; [reflexivity |]. simpl. auto. }
  destruct (Z.ltb_spec (len (Extra h)) (32 + 65)) as [Hs | Hs].
  { repeat split; try congruence; try lia. intros _. eexists.
    split; [reflexivity |]. simpl. auto. }
  repeat split; try congruence; try lia.
  intros Hp. apply encodeSigHeader_short in Hp. lia.
Qed.

End SealerFacts.

(** * Properties of the assembler *)

Section AssemblerFacts.

Context {DB Snapshot SigCache Logs StateDB Txs Receipts Block : Type}.
Variable E : Deps DB Snapshot SigCache Logs StateDB Txs.
Variable K : Minter DB Snapshot Logs StateDB Txs Receipts Block.

Local Abbreviation World_t := (World DB SigCache).
Local Abbreviation Extra_t := (HeaderExtra.t Logs).

(** Case analysis on every test of [FinalizeAndAssemble]. *)
Ltac cases :=
  repeat match goal with
         | |- context [match ?x with _ => _ end] => destruct x eqn:?; simpl
         | |- context [if ?x then _ else _] => destruct x eqn:?; simpl
         end.

(** [assemble] on its own. *)
Lemma assemble_ok_inv (h : Header) (st : StateDB) (txs : Txs) (rc : Receipts)
      (snap : Snapshot) (hx0 : Extra_t) (w : World_t) (b : Block) :
  assembled (assemble E K h st txs rc snap hx0 w) = Ok b ->
  let r := assemble E K h st txs rc snap hx0 w in
  exists root data vanity,
    snapRoot E snap = Success root /\
    Encode E (HeaderExtra.make root (HeaderExtra.Epoch hx0)
                (HeaderExtra.EpochTime hx0) (HeaderExtra.Logs_ hx0)) =
      Success data /\
    snapCommit E snap root (db w) = (None, db (worldAfter r)) /\
    calls (worldAfter r) = calls w ++ [CallCommit root] /\
    (if len (Extra h) <? 32 then vanityBeyond K (Extra h) = Ok vanity
     else vanity = firstn 32 (Extra h)) /\
    headerAfter r =
      setUncleHash
        (setStateRoot (setExtra h (vanity ++ data ++ zeros 65))
           (fst (IntermediateRoot E st (IsEIP158 E (Number h)))))
        (CalcUncleHashNil E) /\
    stateAfter r = snd (IntermediateRoot E st (IsEIP158 E (Number h))) /\
    b = NewBlock K (headerAfter r) txs rc.
Proof.
  cbv zeta. unfold assemble, extraVanity, extraSeal.
  change (Z.to_nat 32) with 32%nat.
  destruct (snapRoot E snap) as [root | e] eqn:Hsr; simpl; [| discriminate].
  destruct (snapCommit E snap root (db w)) as [[e|] d0] eqn:Hcm; simpl;
    [discriminate |].
  destruct (Encode E _) as [data | e] eqn:Henc; simpl; [| discriminate].
  destruct (len (Extra h) <? 32).
  - destruct (vanityBeyond K (Extra h)) as [vanity | e | p] eqn:Hvb; simpl;
      try discriminate.
    destruct (IntermediateRoot E st _) as [root' st']; simpl.
    intros [= <-]. exists root, data, vanity. repeat split; auto.
  - simpl. destruct (IntermediateRoot E st _) as [root' st']; simpl.
    intros [= <-]. exists root, data, (firstn 32 (Extra h)). repeat split; auto.
Qed.

Lemma assemble_fail (h : Header) (st : StateDB) (txs : Txs) (rc : Receipts)
      (snap : Snapshot) (hx0 : Extra_t) (w : World_t) :
  let r := assemble E K h st txs rc snap hx0 w in
  (forall b, assembled r <> Ok b) -> headerAfter r = h.
Proof.
  cbv zeta. unfold assemble. cases; intros H; try reflexivity;
    exfalso; eapply H; reflexivity.
Qed.

Lemma assemble_panics (h : Header) (st : StateDB) (txs : Txs) (rc : Receipts)
      (snap : Snapshot) (hx0 : Extra_t) (w : World_t) (p : PanicValue) :
  assembled (assemble E K h st txs rc snap hx0 w) = Panic p ->
  len (Extra h) < 32 /\ vanityBeyond K (Extra h) = Panic p.
Proof.
  unfold assemble, extraVanity.
  destruct (snapRoot E snap) as [root | e]; simpl; [| discriminate].
  destruct (snapCommit E snap root (db w)) as [[e|] d0]; simpl; [discriminate |].
  destruct (Encode E _) as [data | e]; simpl; [| discriminate].
  destruct (Z.ltb_spec (len (Extra h)) 32).
  - destruct (vanityBeyond K (Extra h)) as [vanity | e | q]; simpl;
      try discriminate.
    + destruct (IntermediateRoot E st _); discriminate.
    + intros [= <-]. split; [assumption | reflexivity].
  - simpl. destruct (IntermediateRoot E st _); discriminate.
Qed.

(** X18. When [FinalizeAndAssemble] returns a block, the root written in
    the extra of the header is the root of the snapshot it committed: the
    log gains the load of the starting snapshot (under the zero root up to
    height 1, else under the root the parent declares) and one commit, under
    the root that the payload carries; the new extra is the vanity of the
    old one, the payload and 65 zero bytes, and the block is made of the
    header so left. *)
Theorem assembled_extra_carries_the_committed_root
        (h : Header) (st : StateDB) (txs : Txs) (rc : Receipts)
        (w : World_t) (b : Block) :
  assembled (FinalizeAndAssemble E K h st txs rc w) = Ok b ->
  32 <= len (Extra h) ->
  let r := FinalizeAndAssemble E K h st txs rc w in
  exists n root0 snap hx data rc',
    Number h = Some n /\
    (bigInt64 n <= 1 /\ root0 = zeroRoot \/
     1 < bigInt64 n /\
     exists parent phx,
       GetHeader E (ParentHash h) (u64 (bigUint64 n - 1)) = Some parent /\
       decodeHeaderExtra E parent = Success phx /\
       root0 = HeaderExtra.Root phx) /\
    snapRoot E snap = Success (HeaderExtra.Root hx) /\
    Encode E hx = Success data /\
    Extra (headerAfter r) = firstn 32 (Extra h) ++ data ++ zeros 65 /\
    calls (worldAfter r) =
      calls w ++ [CallLoadSnapshot root0; CallCommit (HeaderExtra.Root hx)] /\
    snapCommit E snap (HeaderExtra.Root hx) (db w) = (None, db (worldAfter r)) /\
    UncleHash (headerAfter r) = CalcUncleHashNil E /\
    b = NewBlock K (headerAfter r) txs rc'.
Proof.
  intros Hok H32. cbv zeta. revert Hok. unfold FinalizeAndAssemble.
  destruct (Number h) as [n|] eqn:Hn; simpl; [| discriminate].
  destruct (decodeHeaderExtra E h) as [ohx | e] eqn:Hx; simpl; [| discriminate].
  set (parent := GetHeader E (ParentHash h) (u64 (bigUint64 n - 1))).
  assert (Hroot0 :
            forall root0,
              (if bigInt64 n >? 1 then
                 match parent with
                 | None => Panic panicNilDereference
                 | Some p =>
                     match decodeHeaderExtra E p with
                     | Failure err => Err err
                     | Success phx => Ok (HeaderExtra.Root phx)
                     end
                 end
               else Ok zeroRoot) = Ok root0 ->
              bigInt64 n <= 1 /\ root0 = zeroRoot \/
              1 < bigInt64 n /\
              exists p phx,
                parent = Some p /\ decodeHeaderExtra E p = Success phx /\
                root0 = HeaderExtra.Root phx).
  { intros root0. destruct (Z.gtb_spec (bigInt64 n) 1) as [Hgt | Hle].
    - destruct parent as [p|]; [| discriminate].
      destruct (decodeHeaderExtra E p) as [phx | e] eqn:Hpx; [| discriminate].
      intros [= <-]. right. split; [lia |]. exists p, phx. auto.
    - intros [= <-]. left. split; [lia | reflexivity]. }
  destruct (if bigInt64 n >? 1 then _ else _) as [root0 | e | p] eqn:Hr0;
    simpl; try discriminate.
  specialize (Hroot0 root0 eq_refl).
  destruct (loadSnapshot E (db w) root0) as [snap0 | e]; simpl; [| discriminate].
  destruct (chainConfig E (db w) parent) as [cfg | e]; simpl; [| discriminate].
  destruct (MintBlock K snap0 _ _ _) as [snap1 | e]; simpl; [| discriminate].
  destruct (processTransactionsWith K cfg _ h snap1 _ txs rc)
    as [[[st2 snap2] hx2] rc2].
  destruct (tryElect E cfg st2 h snap2 hx2) as [[e|] [[st3 snap3] hx3]]; simpl;
    [discriminate |].
  intros Hok.
  destruct (assemble_ok_inv h st3 txs rc2 snap3 hx3
              (logCall w (CallLoadSnapshot root0)) b Hok)
    as (root & data & vanity & Hsr & Henc & Hcm & Hcalls & Hvan & Hh & _ & Hb).
  destruct (Z.ltb_spec (len (Extra h)) 32); [lia |]. subst vanity.
  exists n, root0, snap3,
    (HeaderExtra.make root (HeaderExtra.Epoch hx3) (HeaderExtra.EpochTime hx3)
       (HeaderExtra.Logs_ hx3)), data, rc2.
  simpl. rewrite Hh, Hcalls. simpl. rewrite <- app_assoc. simpl.
  repeat split; auto. rewrite Hb, Hh. reflexivity.
Qed.

(** X19. [FinalizeAndAssemble] returns its failures: it panics only on a
    header without a number, on a nil parent above height 1, or when the
    extra of the header has less than 32 bytes and cannot be cut to the
    vanity; never with an error of the codec, the store or the election. *)
Theorem FinalizeAndAssemble_panics_only_on_nil_or_slice
        (h : Header) (st : StateDB) (txs : Txs) (rc : Receipts)
        (w : World_t) (p : PanicValue) :
  assembled (FinalizeAndAssemble E K h st txs rc w) = Panic p ->
  (p = panicNilDereference /\
   (Number h = None \/
    exists n, Number h = Some n /\ 1 < bigInt64 n /\
              GetHeader E (ParentHash h) (u64 (bigUint64 n - 1)) = None)) \/
  (len (Extra h) < 32 /\ vanityBeyond K (Extra h) = Panic p).
Proof.
  unfold FinalizeAndAssemble.
  destruct (Number h) as [n|] eqn:Hn; simpl;
    [| intros [= <-]; left; split; [reflexivity | left; reflexivity]].
  destruct (decodeHeaderExtra E h) as [ohx | e]; simpl; [| discriminate].
  destruct (Z.gtb_spec (bigInt64 n) 1) as [Hgt | Hle].
  - destruct (GetHeader E (ParentHash h) _) as [parent|] eqn:Hp;
      [| simpl; intros [= <-]; left; split; [reflexivity |];
         right; exists n; repeat split; auto; lia].
    destruct (decodeHeaderExtra E parent) as [phx | e]; simpl; [| discriminate].
    destruct (loadSnapshot E (db w) _) as [snap0 | e]; simpl; [| discriminate].
    destruct (chainConfig E (db w) _) as [cfg | e]; simpl; [| discriminate].
    destruct (MintBlock K snap0 _ _ _) as [snap1 | e]; simpl; [| discriminate].
    destruct (processTransactionsWith K cfg _ h snap1 _ txs rc)
      as [[[st2 snap2] hx2] rc2].
    destruct (tryElect E cfg st2 h snap2 hx2) as [[e|] [[st3 snap3] hx3]]; simpl;
      [discriminate |].
    intros Hp'. right. eapply assemble_panics. exact Hp'.
  - simpl.
    destruct (loadSnapshot E (db w) _) as [snap0 | e]; simpl; [| discriminate].
    destruct (chainConfig E (db w) _) as [cfg | e]; simpl; [| discriminate].
    destruct (MintBlock K snap0 _ _ _) as [snap1 | e]; simpl; [| discriminate].
    destruct (processTransactionsWith K cfg _ h snap1 _ txs rc)
      as [[[st2 snap2] hx2] rc2].
    destruct (tryElect E cfg st2 h snap2 hx2) as [[e|] [[st3 snap3] hx3]]; simpl;
      [discriminate |].
    intros Hp'. right. eapply assemble_panics. exact Hp'.
Qed.

(** X20. [FinalizeAndAssemble] writes the header at the very end: whenever
    it does not return a block, the header is as it was given. *)
Theorem FinalizeAndAssemble_keeps_the_header_on_failure
        (h : Header) (st : StateDB) (txs : Txs) (rc : Receipts) (w : World_t) :
  let r := FinalizeAndAssemble E K h st txs rc w in
  (forall b, assembled r <> Ok b) -> headerAfter r = h.
Proof.
  cbv zeta. unfold FinalizeAndAssemble.
  destruct (Number h) as [n|]; simpl; [| reflexivity].
  destruct (decodeHeaderExtra E h) as [ohx | e]; simpl; [| reflexivity].
  destruct (if bigInt64 n >? 1 then _ else _) as [root0 | e | p]; simpl;
    try reflexivity.
  destruct (loadSnapshot E (db w) root0) as [snap0 | e]; simpl; [| reflexivity].
  destruct (chainConfig E (db w) _) as [cfg | e]; simpl; [| reflexivity].
  destruct (MintBlock K snap0 _ _ _) as [snap1 | e]; simpl; [| reflexivity].
  destruct (processTransactionsWith K cfg _ h snap1 _ txs rc)
    as [[[st2 snap2] hx2] rc2].
  destruct (tryElect E cfg st2 h snap2 hx2) as [[e|] [[st3 snap3] hx3]]; simpl;
    [reflexivity |].
  apply assemble_fail.
Qed.

(** X21. Up to height 1 [FinalizeAndAssemble] does not make a fresh
    snapshot, as the verifier does for such a block: it loads the one
    stored under the zero root, and when the store has none it returns the
    error of the load, the header and the state untouched. *)
Theorem FinalizeAndAssemble_loads_the_zero_root
        (h : Header) (st : StateDB) (txs : Txs) (rc : Receipts) (w : World_t)
        (n : Z) (ohx : Extra_t) (e : Error) :
  Number h = Some n ->
  bigInt64 n <= 1 ->
  decodeHeaderExtra E h = Success ohx ->
  loadSnapshot E (db w) zeroRoot = Failure e ->
  FinalizeAndAssemble E K h st txs rc w =
    mkAssembled (Err e) h st (logCall w (CallLoadSnapshot zeroRoot)).
Proof.
  intros Hn Hle Hx Hl. unfold FinalizeAndAssemble. rewrite Hn, Hx.
  destruct (Z.gtb_spec (bigInt64 n) 1); [lia |]. simpl. rewrite Hl. reflexivity.
Qed.

End AssemblerFacts.

(** * Properties of the batch verifier and of [VerifySeal] *)

Lemma firstn_snoc {A : Type} (l : list A) (k : nat) (x : A) :
  nth_error l k = Some x -> firstn (S k) l = firstn k l ++ [x].
Proof.
  revert k. induction l as [|y l IH]; intros [|k] H; try discriminate.
  - injection H as ->. reflexivity.
  - change (y :: firstn (S k) l = y :: (firstn k l ++ [x])).
    f_equal. apply IH. exact H.
Qed.

Section BatchFacts.

Context {DB Snapshot SigCache Logs StateDB Txs : Type}.
Variable E : Deps DB Snapshot SigCache Logs StateDB Txs.

Local Abbreviation World_t := (World DB SigCache).

Ltac step :=
  unfold bind, try, ret, throw, panic, liftR, getDB, record, deref in *;
  simpl in *.

Lemma verifyHeader_after_the_stateless_checks
      (now : Z) (h : Header) (parents : list Header) (n : Z) (w : World_t) :
  Number h = Some n ->
  Time h <= u64 now ->
  32 + 65 <= len (Extra h) ->
  MixDigest h = 0 ->
  UncleHash h = uncleHash E ->
  verifyHeader E now h parents w = verifyCascadingFields E h parents w.
Proof.
  intros Hn Ht Hlen Hmix Hunc.
  unfold verifyHeader, extraVanity, extraSeal. rewrite Hn.
  destruct (Z.gtb_spec (Time h) (u64 now)); [lia |].
  destruct (Z.ltb_spec (len (Extra h)) 32); [lia |].
  destruct (Z.ltb_spec (len (Extra h)) (32 + 65)); [lia |].
  rewrite Hmix, Hunc, !Z.eqb_refl. reflexivity.
Qed.

(** The [k]-th result of the loop is the verification of the [k]-th header
    against the headers before it. *)
Lemma verifyBatch_nth (clock : nat -> Z) (todo : list Header) :
  forall (i : nat) (done : list Header) (w w' : World_t)
         (rs : list (result unit)) (k : nat) (h : Header) (r : result unit),
    verifyBatch E clock i done todo w = (rs, w') ->
    nth_error todo k = Some h ->
    nth_error rs k = Some r ->
    exists wk,
      r = fst (verifyHeader E (clock (i + k)%nat) h (done ++ firstn k todo) wk).
Proof.
  induction todo as [|h0 rest IH]; intros i done w w' rs k h r Hb Hh Hr.
  - destruct k; discriminate.
  - simpl in Hb.
    destruct (verifyHeader E (clock i) h0 done w) as [r0 w1] eqn:Hv.
    destruct k as [|k].
    + simpl in Hh. injection Hh as <-.
      exists w. simpl. rewrite app_nil_r, Nat.add_0_r, Hv. simpl.
      destruct r0 as [[] | e | p].
      * destruct (verifyBatch E clock (S i) (done ++ [h0]) rest w1) as [rs' w2].
        injection Hb as <- _. simpl in Hr. congruence.
      * destruct (verifyBatch E clock (S i) (done ++ [h0]) rest w1) as [rs' w2].
        injection Hb as <- _. simpl in Hr. congruence.
      * injection Hb as <- _. simpl in Hr. congruence.
    + simpl in Hh.
      assert (Hrest : exists rs' w2,
                 verifyBatch E clock (S i) (done ++ [h0]) rest w1 = (rs', w2) /\
                 nth_error rs' k = Some r).
      { destruct r0 as [[] | e | p].
        - destruct (verifyBatch E clock (S i) (done ++ [h0]) rest w1) as [rs' w2].
          injection Hb as <- _. simpl in Hr. exists rs', w2. auto.
        - destruct (verifyBatch E clock (S i) (done ++ [h0]) rest w1) as [rs' w2].
          injection Hb as <- _. simpl in Hr. exists rs', w2. auto.
        - injection Hb as <- _. simpl in Hr. destruct k; discriminate. }
      destruct Hrest as (rs' & w2 & Hb' & Hr').
      destruct (IH (S i) (done ++ [h0]) w1 w2 rs' k h r Hb' Hh Hr') as [wk Hwk].
      exists wk. rewrite Hwk. simpl. rewrite <- app_assoc. simpl.
      replace (i + S k)%nat with (S (i + k)) by lia. reflexivity.
Qed.

Lemma verifyBatch_length (clock : nat -> Z) (todo : list Header) :
  forall (i : nat) (done : list Header) (w w' : World_t)
         (rs : list (result unit)),
    verifyBatch E clock i done todo w = (rs, w') ->
    (List.length rs <= List.length todo)%nat /\
    ((forall r, In r rs -> isPanic r = false) ->
     List.length rs = List.length todo).
Proof.
  induction todo as [|h0 rest IH]; intros i done w w' rs Hb; simpl in Hb.
  - injection Hb as <- _. split; [simpl; lia | reflexivity].
  - destruct (verifyHeader E (clock i) h0 done w) as [r0 w1].
    assert (Hgo : forall r1, isPanic r1 = false ->
               (let '(rs', w2) := verifyBatch E clock (S i) (done ++ [h0]) rest w1 in
                (r1 :: rs', w2)) = (rs, w') ->
               (List.length rs <= S (List.length rest))%nat /\
               ((forall r, In r rs -> isPanic r = false) ->
                List.length rs = S (List.length rest))).
    { intros r1 _ H.
      destruct (verifyBatch E clock (S i) (done ++ [h0]) rest w1) as [rs' w2] eqn:Hb'.
      injection H as <- _.
      destruct (IH (S i) (done ++ [h0]) w1 w2 rs' Hb') as [Hle Heq].
      simpl. split; [lia |]. intros Hnp. f_equal. apply Heq.
      intros r Hin. apply Hnp. right. exact Hin. }
    destruct r0 as [[] | e | p].
    + apply (Hgo (Ok tt) eq_refl Hb).
    + apply (Hgo (Err e) eq_refl Hb).
    + injection Hb as <- _. simpl. split; [lia |].
      intros Hnp. specialize (Hnp (Panic p) (or_introl eq_refl)). discriminate.
Qed.

(** X22. [VerifyHeaders] reads the number of every header before it starts:
    one header without a number in the batch and the call panics, with
    nothing verified, though [verifyHeader] on that header alone returns
    the error of an unknown block. *)
Theorem VerifyHeaders_panics_on_a_header_without_number
        (clock : nat -> Z) (headers : list Header) (h : Header) (w : World_t) :
  In h headers ->
  Number h = None ->
  VerifyHeaders E clock headers w = (Panic panicNilDereference, w) /\
  forall now parents, verifyHeader E now h parents w = (Err errUnknownBlock, w).
Proof.
  intros Hin Hn. split.
  - unfold VerifyHeaders.
    assert (Hex : existsb (fun h0 => match Number h0 with
                                     | None => true
                                     | Some _ => false
                                     end) headers = true).
    { apply existsb_exists. exists h. rewrite Hn. auto. }
    rewrite Hex. reflexivity.
  - intros now parents. unfold verifyHeader. rewrite Hn. reflexivity.
Qed.

(** X23. In a batch every header after the first is checked against the
    header before it in the batch, and the chain is not asked for its
    parent: the result at that place is the one of [verifyHeader] with the
    headers before as parents, the parent resolved is the predecessor, and
    a header that passes the stateless checks but does not name its
    predecessor (by hash or by number) gets the error of an unknown
    ancestor. *)
Theorem VerifyHeaders_checks_against_the_predecessor
        (clock : nat -> Z) (headers : list Header) (w w' : World_t)
        (rs : list (result unit)) (k : nat) (p h : Header) (r : result unit)
        (n : Z) :
  VerifyHeaders E clock headers w = (Ok rs, w') ->
  nth_error headers k = Some p ->
  nth_error headers (S k) = Some h ->
  nth_error rs (S k) = Some r ->
  Number h = Some n ->
  bigUint64 n <> 0 ->
  (exists wk,
      r = fst (verifyHeader E (clock (S k)) h (firstn (S k) headers) wk)) /\
  resolveParent E h (bigUint64 n) (firstn (S k) headers) = Some p /\
  (Time h <= u64 (clock (S k)) ->
   32 + 65 <= len (Extra h) ->
   MixDigest h = 0 ->
   UncleHash h = uncleHash E ->
   (HeaderHash E p <> ParentHash h \/
    forall pn, Number p = Some pn -> bigUint64 pn <> u64 (bigUint64 n - 1)) ->
   r = Err ErrUnknownAncestor).
Proof.
  intros Hv Hp Hh Hr Hn Hnz. unfold VerifyHeaders in Hv.
  destruct (existsb _ headers) eqn:Hex; [discriminate |].
  destruct (verifyBatch E clock 0 [] headers w) as [rs0 w0] eqn:Hb.
  injection Hv as <- <-.
  destruct (verifyBatch_nth clock headers 0 [] w w0 rs0 (S k) h r Hb Hh Hr)
    as [wk Hwk].
  assert (Hwk' : r = fst (verifyHeader E (clock (S k)) h
                            (firstn (S k) headers) wk)) by exact Hwk.
  clear Hwk. rename Hwk' into Hwk.
  assert (Hres : resolveParent E h (bigUint64 n) (firstn (S k) headers) = Some p).
  { unfold resolveParent. rewrite (firstn_snoc headers k p Hp).
    rewrite last_last.
    destruct (Z.gtb_spec (len (firstn k headers ++ [p])) 0) as [| Hle];
      [reflexivity |].
    unfold len in Hle. rewrite length_app in Hle. simpl in Hle. lia. }
  split; [exists wk; exact Hwk |]. split; [exact Hres |].
  intros Ht Hlen Hmix Hunc Hbad. rewrite Hwk.
  rewrite (verifyHeader_after_the_stateless_checks (clock (S k)) h _ n wk
             Hn Ht Hlen Hmix Hunc).
  destruct (Number p) as [pn|] eqn:Hpn.
  - rewrite (verifyCascadingFields_unfold E h p _ n pn wk Hn Hnz Hres Hpn).
    destruct (Z.eqb_spec (bigUint64 pn) (u64 (bigUint64 n - 1))) as [H1 | H1];
      [| reflexivity].
    destruct (Z.eqb_spec (HeaderHash E p) (ParentHash h)) as [H2 | H2];
      [| reflexivity].
    destruct Hbad as [Hbad | Hbad]; [contradiction |].
    exfalso. apply (Hbad pn eq_refl H1).
  - exfalso.
    assert (Hin : In p headers) by (eapply nth_error_In; exact Hp).
    assert (Hex' : existsb (fun h0 => match Number h0 with
                                      | None => true
                                      | Some _ => false
                                      end) headers = true).
    { apply existsb_exists. exists p. rewrite Hpn. auto. }
    congruence.
Qed.

(** X24. When nobody aborts and no verification panics, [VerifyHeaders]
    sends one result for each header of the batch; it never sends more
    results than there are headers. *)
Theorem VerifyHeaders_sends_one_result_per_header
        (clock : nat -> Z) (headers : list Header) (w w' : World_t)
        (rs : list (result unit)) :
  VerifyHeaders E clock headers w = (Ok rs, w') ->
  (List.length rs <= List.length headers)%nat /\
  ((forall r, In r rs -> isPanic r = false) ->
   List.length rs = List.length headers).
Proof.
  intros Hv. unfold VerifyHeaders in Hv.
  destruct (existsb _ headers); [discriminate |].
  destruct (verifyBatch E clock 0 [] headers w) as [rs0 w0] eqn:Hb.
  injection Hv as <- <-.
  apply (verifyBatch_length clock headers 0 [] w w0 rs0 Hb).
Qed.

End BatchFacts.

Section VerifySealFacts.

Context {DB Snapshot SigCache Logs StateDB Txs Receipts Block : Type}.
Variable E : Deps DB Snapshot SigCache Logs StateDB Txs.
Variable K : Minter DB Snapshot Logs StateDB Txs Receipts Block.

(** X25. [VerifySeal] refuses the genesis block, and any header whose
    number is 0 modulo 2^64, as an unknown block: without reading the store
    or the cache, whether the chain has a parent for it or not. *)
Theorem VerifySeal_refuses_the_genesis_block
        (h : Header) (n : Z) (w : World DB SigCache) :
  Number h = Some n ->
  bigUint64 n = 0 ->
  VerifySeal E K h w = (Err errUnknownBlock, w).
Proof.
  intros Hn H0. unfold VerifySeal. rewrite Hn.
  assert (Hg : bigInt64 n = 0).
  { unfold bigInt64. unfold bigUint64 in H0. rewrite H0.
    destruct (n <? 0); reflexivity. }
  unfold bind, deref, ret. rewrite Hg. simpl.
  unfold verifySealOf.
  destruct (GetHeader E (ParentHash h) _) as [p|].
  - unfold verifySeal, bind, deref, ret, throw. rewrite Hn, H0. reflexivity.
  - unfold bind, deref, ret, throw. rewrite Hn, H0. reflexivity.
Qed.

End VerifySealFacts.

(** * The further properties on the small chain *)

Lemma unknown_ancestor_is_rejected_witness :
  verifyCascadingFields Scenario.deps Mint.stray9 [Scenario.block8]
    Scenario.world = (Err ErrUnknownAncestor, Scenario.world).
Proof.
  apply (unknown_ancestor_is_rejected Scenario.deps Mint.stray9
           [Scenario.block8] 9 Scenario.world eq_refl).
  - vm_compute. discriminate.
  - right. exists Scenario.block8, 8. repeat split.
    right. vm_compute. discriminate.
Defined.

Lemma number_zero_modulo_2_64_is_accepted_witness :
  verifyHeader Scenario.deps 2000 Mint.block_2_64 [] Scenario.world =
    (Ok tt, Scenario.world).
Proof.
  apply (number_zero_modulo_2_64_is_accepted Scenario.deps 2000 Mint.block_2_64
           [] (2 ^ 64) Scenario.world eq_refl).
  - reflexivity.
  - vm_compute. discriminate.
  - vm_compute. discriminate.
  - reflexivity.
  - reflexivity.
Defined.

Lemma accepted_header_is_committed_once_witness :
  exists c,
    calls (snd (verifyCascadingFields Scenario.deps Scenario.block8 []
                  Scenario.world)) =
    calls Scenario.world ++ [c; CallCommit Scenario.root8].
Proof.
  destruct (accepted_header_is_committed_once Scenario.deps Scenario.block8 [] 8
              Scenario.world
              (snd (verifyCascadingFields Scenario.deps Scenario.block8 []
                      Scenario.world))
              eq_refl ltac:(vm_compute; discriminate)
              ltac:(vm_compute; reflexivity))
    as (parent & pn & hx & snap0 & snap1 & c & _ & _ & Hx & _ & _ & _ & Hc & _).
  exists c. rewrite Hc.
  assert (Hhx : hx = HeaderExtra.make Scenario.root8 5 1000 tt).
  { assert (H : Success hx =
                Success (HeaderExtra.make Scenario.root8 5 1000 tt))
      by (rewrite <- Hx; vm_compute; reflexivity).
    injection H as ->. reflexivity. }
  rewrite Hhx. reflexivity.
Defined.

Lemma rejected_header_leaves_the_store_witness :
  db (snd (verifyCascadingFields Scenario.deps Scenario.block8_wrong_root []
             Scenario.world)) = [Scenario.root7] /\
  filter isCommit
    (calls (snd (verifyCascadingFields Scenario.deps Scenario.block8_wrong_root []
                   Scenario.world))) = [].
Proof.
  apply (rejected_header_leaves_the_store Scenario.deps
           Scenario.block8_wrong_root [] Scenario.world);
    vm_compute; discriminate.
Defined.

Lemma verifySeal_accepts_the_signer_in_turn_witness :
  fst (verifySeal Scenario.deps Scenario.config Scenario.block8 Scenario.parent7
         Scenario.world) = Ok tt.
Proof.
  apply (verifySeal_accepts_the_signer_in_turn Scenario.deps Scenario.config
           Scenario.block8 Scenario.parent7 8 Scenario.world eq_refl
           ltac:(vm_compute; discriminate)).
  exists 7. split; vm_compute; reflexivity.
Defined.

Lemma Author_is_stable_witness :
  fst (Author Scenario.deps Scenario.block8
         (snd (Author Scenario.deps Scenario.block8 Scenario.world))) = Ok 7.
Proof.
  apply (Author_is_stable Scenario.deps Scenario.block8 Scenario.world 7).
  - intros c k v. simpl. unfold Scenario.cacheGet. simpl.
    rewrite Z.eqb_refl. reflexivity.
  - intros c k v H. simpl in *. exact H.
  - vm_compute. reflexivity.
Defined.

Lemma prepared_header_is_ready_for_the_seal_witness :
  MixDigest Mint.prepared8 = 0 /\
  Difficulty Mint.prepared8 = Some 1 /\
  32 + 65 <= len (Extra Mint.prepared8).
Proof.
  destruct (prepared_header_is_ready_for_the_seal Scenario.deps [Scenario.root7]
              1028 Scenario.blank8 ltac:(vm_compute; reflexivity))
    as (Hm & Hd & _ & _ & _ & _ & Hl & _).
  repeat split; assumption.
Defined.

Lemma prepared_payload_passes_the_epoch_check_witness :
  exists parent phx hx data,
    GetHeader Scenario.deps (ParentHash Scenario.blank8) (u64 (bigUint64 8 - 1)) =
      Some parent /\
    decodeHeaderExtra Scenario.deps parent = Success phx /\
    Encode Scenario.deps hx = Success data /\
    Extra Mint.prepared8 = frameExtra (Extra Scenario.blank8) data /\
    HeaderExtra.Root hx = HeaderExtra.Root phx /\
    epochContinuous hx phx (Time Mint.prepared8) = true.
Proof.
  apply (prepared_payload_passes_the_epoch_check Scenario.deps [Scenario.root7]
           1028 Scenario.blank8 8 eq_refl).
  - vm_compute. discriminate.
  - vm_compute. reflexivity.
Defined.

Lemma Prepare_at_height_one_witness :
  Prepare Scenario.deps [] 950 Mint.blank1 =
    (setExtra
       (setTime (setDifficulty (setMixDigest Mint.blank1 0) (Some 1)) 950)
       (Scenario.extraOf zeroRoot 1 950 (zeros 65)), Ok tt).
Proof.
  rewrite (Prepare_at_height_one Scenario.deps [] 950 Mint.blank1
             Scenario.genesis 1 eq_refl eq_refl eq_refl).
  reflexivity.
Defined.

Lemma Prepare_panics_on_a_zero_epoch_witness :
  Prepare Mint.oddDeps [Scenario.root7] 1028 Scenario.blank8 =
    (setTime (setDifficulty (setMixDigest Scenario.blank8 0) (Some 1)) 1030,
     Panic panicDivideByZero).
Proof.
  rewrite (Prepare_panics_on_a_zero_epoch Mint.oddDeps [Scenario.root7] 1028
             Scenario.blank8 Scenario.parent7 8
             (HeaderExtra.make Scenario.root7 5 1000 tt) (params.mkConfig 3 0)
             eq_refl ltac:(vm_compute; discriminate) eq_refl eq_refl eq_refl
             eq_refl).
  reflexivity.
Defined.

Lemma Finalize_returns_only_on_equal_extra_witness :
  exists temp,
    Equal Scenario.deps temp (HeaderExtra.make Scenario.root8 5 1000 tt) = true.
Proof.
  destruct (Finalize_returns_only_on_equal_extra Scenario.deps [Scenario.root7]
              Scenario.block8
              (setUncleHash (setStateRoot Scenario.block8 1) Scenario.uncles)
              0 1 [] ltac:(vm_compute; reflexivity))
    as (hx & cfg & snap & st1 & snap1 & temp1 & st2 & snap2 & temp2
        & Hx & _ & _ & Heq & _).
  exists temp2.
  assert (H : Success hx = Success (HeaderExtra.make Scenario.root8 5 1000 tt))
    by (rewrite <- Hx; vm_compute; reflexivity).
  injection H as <-. exact Heq.
Defined.

Lemma Finalize_panics_with_nil_on_a_different_extra_witness :
  Finalize Mint.oddDeps [Scenario.root7] Scenario.block8 0 [] =
    Panic (panicError None).
Proof.
  apply (Finalize_panics_with_nil_on_a_different_extra Mint.oddDeps
           [Scenario.root7] Scenario.block8 0 [] 8
           (HeaderExtra.make Scenario.root8 5 1000 tt) Scenario.root7
           Scenario.config 1 1 Scenario.root7 Scenario.root7
           (HeaderExtra.make Scenario.root8 5 1000 tt)
           (HeaderExtra.make (mkRoot 1 2 3 4 6 8 0 0) 5 1000 tt));
    vm_compute; reflexivity.
Defined.

Lemma Finalize_goes_on_when_the_snapshot_is_missing_witness :
  Finalize Scenario.deps [] Scenario.block8 0 [] =
    Ok (setUncleHash (setStateRoot Scenario.block8 1) Scenario.uncles, 1).
Proof.
  rewrite (Finalize_goes_on_when_the_snapshot_is_missing Scenario.deps []
             Scenario.block8 Scenario.parent7 0 [] 8
             (HeaderExtra.make Scenario.root8 5 1000 tt)
             (HeaderExtra.make Scenario.root7 5 1000 tt)
             (errCollaborator "snapshot missing") Scenario.config
             1 1 zeroRoot zeroRoot
             (HeaderExtra.make Scenario.root8 5 1000 tt)
             (HeaderExtra.make Scenario.root8 5 1000 tt));
    vm_compute; first [reflexivity | discriminate].
Defined.

Lemma Seal_changes_the_seal_only_witness :
  Seal Scenario.deps Mint.minter [Scenario.root7] Mint.unsealed8 =
    Ok Scenario.block8 /\
  SealHash Scenario.deps Scenario.block8 =
    SealHash Scenario.deps Mint.unsealed8.
Proof.
  split; [vm_compute; reflexivity |].
  apply (Seal_changes_the_seal_only Scenario.deps Mint.minter [Scenario.root7]
           Mint.unsealed8 Scenario.block8).
  vm_compute. reflexivity.
Defined.

Lemma Author_of_a_sealed_header_is_the_signer_witness :
  fst (Author Scenario.deps Scenario.block8 Scenario.world) = Ok 7.
Proof.
  apply (Author_of_a_sealed_header_is_the_signer Scenario.deps Mint.minter
           [Scenario.root7] Mint.unsealed8 Scenario.block8 Scenario.world).
  - intros rlp sigHash H. injection H as <-. split; [reflexivity |].
    exists 4, (zeros 64 ++ [7]). split; vm_compute; reflexivity.
  - vm_compute. reflexivity.
  - vm_compute. reflexivity.
Defined.

Lemma Seal_checks_the_frame_first_witness :
  Seal Scenario.deps Mint.minter [Scenario.root7] Scenario.blank8 =
    Err errMissingVanity.
Proof.
  apply (Seal_checks_the_frame_first Scenario.deps Mint.minter [Scenario.root7]
           Scenario.blank8 8 eq_refl); vm_compute; first [discriminate | reflexivity].
Defined.

Lemma assembled_extra_carries_the_committed_root_witness :
  exists snap hx data,
    snapRoot Scenario.deps snap = Success (HeaderExtra.Root hx) /\
    Encode Scenario.deps hx = Success data /\
    Extra (headerAfter (FinalizeAndAssemble Scenario.deps Mint.minter
                          Mint.prepared8 0 [] [] Scenario.world)) =
      firstn 32 (Extra Mint.prepared8) ++ data ++ zeros 65.
Proof.
  destruct (assembled_extra_carries_the_committed_root Scenario.deps Mint.minter
              Mint.prepared8 0 [] [] Scenario.world
              (setStateRoot Mint.unsealed8 1)
              ltac:(vm_compute; reflexivity) ltac:(vm_compute; discriminate))
    as (n & root0 & snap & hx & data & rc' & _ & _ & Hsr & He & Hx & _).
  exists snap, hx, data. repeat split; assumption.
Defined.

Lemma FinalizeAndAssemble_panics_only_on_nil_or_slice_witness :
  assembled (FinalizeAndAssemble Scenario.deps Mint.minter Mint.nameless 0 [] []
               Scenario.world) = Panic panicNilDereference /\
  Number Mint.nameless = None.
Proof.
  split; [vm_compute; reflexivity |].
  destruct (FinalizeAndAssemble_panics_only_on_nil_or_slice Scenario.deps
              Mint.minter Mint.nameless 0 [] [] Scenario.world
              panicNilDereference ltac:(vm_compute; reflexivity))
    as [[_ [H | (n & H & _)]] | [H _]].
  - exact H.
  - discriminate H.
  - vm_compute in H. discriminate H.
Defined.

Lemma FinalizeAndAssemble_keeps_the_header_on_failure_witness :
  headerAfter (FinalizeAndAssemble Scenario.deps Mint.minter
                 Scenario.block8_malformed 0 [] [] Scenario.world) =
    Scenario.block8_malformed.
Proof.
  apply (FinalizeAndAssemble_keeps_the_header_on_failure Scenario.deps
           Mint.minter Scenario.block8_malformed 0 [] [] Scenario.world).
  intros b. vm_compute. discriminate.
Defined.

Lemma FinalizeAndAssemble_loads_the_zero_root_witness :
  FinalizeAndAssemble Scenario.deps Mint.minter Scenario.block1 0 [] []
    Scenario.world =
  mkAssembled (Err (errCollaborator "snapshot missing")) Scenario.block1 0
    (logCall Scenario.world (CallLoadSnapshot zeroRoot)).
Proof.
  apply (FinalizeAndAssemble_loads_the_zero_root Scenario.deps Mint.minter
           Scenario.block1 0 [] [] Scenario.world 1
           (HeaderExtra.make Scenario.root1 9 77 tt)
           (errCollaborator "snapshot missing") eq_refl);
    vm_compute; first [discriminate | reflexivity].
Defined.

Lemma VerifyHeaders_panics_on_a_header_without_number_witness :
  VerifyHeaders Scenario.deps (fun _ => 2000) [Scenario.block8; Mint.nameless]
    Scenario.world = (Panic panicNilDereference, Scenario.world).
Proof.
  apply (VerifyHeaders_panics_on_a_header_without_number Scenario.deps
           (fun _ => 2000) [Scenario.block8; Mint.nameless] Mint.nameless
           Scenario.world).
  - right. left. reflexivity.
  - reflexivity.
Defined.

Lemma VerifyHeaders_checks_against_the_predecessor_witness :
  fst (VerifyHeaders Scenario.deps (fun _ => 2000) [Scenario.block8; Mint.stray9]
         Scenario.world) = Ok [Ok tt; Err ErrUnknownAncestor] /\
  resolveParent Scenario.deps Mint.stray9 (bigUint64 9)
    (firstn 1 [Scenario.block8; Mint.stray9]) = Some Scenario.block8.
Proof.
  split; [vm_compute; reflexivity |].
  apply (VerifyHeaders_checks_against_the_predecessor Scenario.deps
           (fun _ => 2000) [Scenario.block8; Mint.stray9] Scenario.world
           (snd (VerifyHeaders Scenario.deps (fun _ => 2000)
                   [Scenario.block8; Mint.stray9] Scenario.world))
           [Ok tt; Err ErrUnknownAncestor] 0 Scenario.block8 Mint.stray9
           (Err ErrUnknownAncestor) 9);
    vm_compute; first [discriminate | reflexivity].
Defined.

Lemma VerifyHeaders_sends_one_result_per_header_witness :
  List.length [Ok tt; @Err unit ErrUnknownAncestor] =
  List.length [Scenario.block8; Mint.stray9].
Proof.
  apply (VerifyHeaders_sends_one_result_per_header Scenario.deps
           (fun _ => 2000) [Scenario.block8; Mint.stray9] Scenario.world
           (snd (VerifyHeaders Scenario.deps (fun _ => 2000)
                   [Scenario.block8; Mint.stray9] Scenario.world))
           [Ok tt; Err ErrUnknownAncestor]).
  - vm_compute. reflexivity.
  - intros r [<- | [<- | []]]; reflexivity.
Defined.

Lemma VerifySeal_refuses_the_genesis_block_witness :
  VerifySeal Scenario.deps Mint.minter Scenario.genesis Scenario.world =
    (Err errUnknownBlock, Scenario.world).
Proof.
  apply (VerifySeal_refuses_the_genesis_block Scenario.deps Mint.minter
           Scenario.genesis 0 Scenario.world); reflexivity.
Defined.

(** From the blank header to the accepted block: prepared, assembled and
    sealed, block 8 is the block that the verifier accepts. *)
Example minted_block_is_accepted :
  let prepared := Mint.prepared8 in
  let r := FinalizeAndAssemble Scenario.deps Mint.minter prepared 0 [] []
             Scenario.world in
  Seal Scenario.deps Mint.minter [Scenario.root7] (headerAfter r) =
    Ok (setStateRoot Scenario.block8 1) /\
  fst (verifyHeader Scenario.deps 2000 (setStateRoot Scenario.block8 1) []
         Scenario.world) = Ok tt.
Proof. vm_compute. split; reflexivity. Qed.

(** * The panics of the engine and the failures it returns *)

Section EnginePanics.

Context {DB Snapshot SigCache Logs StateDB Txs Receipts Block : Type}.
Variable E : Deps DB Snapshot SigCache Logs StateDB Txs.
Variable K : Minter DB Snapshot Logs StateDB Txs Receipts Block.

Local Abbreviation World_t := (World DB SigCache).
Local Abbreviation Extra_t := (HeaderExtra.t Logs).

Ltac step :=
  unfold bind, try, ret, throw, panic, liftR, getDB, record, deref in *;
  simpl in *.

(** ** Which panics *)














(** ** Which failures are returned *)










(** ** [Finalize] *)




End EnginePanics.

